(** * DNS analytics of the VPN daemon (package [dns], file [daemon/dns/analytics.go])

    A shallow embedding of the event model, of the analytics reporter and of
    the resolv.conf monitor, together with the properties of their payloads,
    context paths, locking discipline and event loop.

    Conventions.
    - A Go [string] is a sequence of bytes: it is a [string] of [ascii] here.
    - A Go [int] used as an enumeration ([eventType], [dnsManagementService],
      [errorType]) is a [Z]; the named constants are the values [iota] gives
      them, and any other [Z] is a value the type can hold as well.
    - Methods with a pointer receiver run in a small state monad over the
      object they mutate; every lock, unlock, log line and publish call is
      also appended to a trace, which is what the ordering properties are
      stated on. *)

From Stdlib Require Import ZArith NArith List String Ascii Bool Lia.
From Stdlib Require Import DecimalString DecimalPos DecimalZ.
Import ListNotations.

Open Scope string_scope.

(* ================================================================= *)
(** ** Strings and literals *)

(** The double quote character, and a string wrapped in a pair of them. *)
Definition dquote : ascii := ascii_of_nat 34.
Definition quoted (s : string) : string :=
  String dquote (s ++ String dquote EmptyString).

(** JSON literals are written with an apostrophe wherever the payload has a
    double quote: [json_lit "{'a':'b'}"] is the eight bytes of the JSON text
    that maps key a to the string b. No payload of this package contains an
    apostrophe. *)
Fixpoint json_lit (s : string) : string :=
  match s with
  | EmptyString => EmptyString
  | String a rest =>
      String (if Ascii.eqb a "'"%char then dquote else a) (json_lit rest)
  end.

(* ================================================================= *)
(** ** [fmt.Sprintf("%d", e)] on an [int] *)

(** Signed decimal, no padding: a minus sign for a negative value, then the
    digits without leading zeros; zero is the single digit 0. *)
Definition Sprintf_d (e : Z) : string := NilZero.string_of_int (Z.to_int e).

(* ================================================================= *)
(** ** The enumerations and their [String] methods *)

Definition eventType := Z.

Definition resolvConfOverwrittenEventType : eventType := 0%Z.
Definition dnsConfiguredEventType : eventType := 1%Z.
Definition dnsConfigurationErrorEventType : eventType := 2%Z.

(** The [case] arms of the [switch] in [eventType.String]; [None] stands for
    its [default] arm. *)
Definition eventType_case (e : eventType) : option string :=
  if (e =? resolvConfOverwrittenEventType)%Z then Some "resolvconf_overwritten"
  else if (e =? dnsConfiguredEventType)%Z then Some "dns_configured"
  else if (e =? dnsConfigurationErrorEventType)%Z then Some "dns_configuration_error"
  else None.

Definition eventType_String (e : eventType) : string :=
  match eventType_case e with
  | Some name => name
  | None => Sprintf_d e
  end.

Definition dnsManagementService := Z.

Definition systemdResolvedService : dnsManagementService := 0%Z.
Definition unmanagedService : dnsManagementService := 1%Z.
Definition unknownService : dnsManagementService := 2%Z.

Definition dnsManagementService_case (e : dnsManagementService) : option string :=
  if (e =? systemdResolvedService)%Z then Some "systemd-resolved"
  else if (e =? unmanagedService)%Z then Some "unmanaged"
  else if (e =? unknownService)%Z then Some "unknown"
  else None.

Definition dnsManagementService_String (e : dnsManagementService) : string :=
  match dnsManagementService_case e with
  | Some name => name
  | None => Sprintf_d e
  end.

Definition errorType := Z.

Definition setFailedErrorType : errorType := 0%Z.
Definition detectionFailedErrorType : errorType := 1%Z.

Definition errorType_case (e : errorType) : option string :=
  if (e =? setFailedErrorType)%Z then Some "set_failed"
  else if (e =? detectionFailedErrorType)%Z then Some "failed_to_detect_management_service"
  else None.

Definition errorType_String (e : errorType) : string :=
  match errorType_case e with
  | Some name => name
  | None => Sprintf_d e
  end.

(** The constants each enumeration declares. *)
Definition eventTypes : list eventType :=
  [resolvConfOverwrittenEventType; dnsConfiguredEventType; dnsConfigurationErrorEventType].
Definition dnsManagementServices : list dnsManagementService :=
  [systemdResolvedService; unmanagedService; unknownService].
Definition errorTypes : list errorType :=
  [setFailedErrorType; detectionFailedErrorType].

(* ================================================================= *)
(** ** [encoding/json]: the fragment [json.Marshal] runs on these structs *)

Module json.

(** A struct as [json.Marshal] sees it by reflection: its exported fields
    in declaration order, the fields of an embedded struct in the place
    of the embedding, each under the name of its [json] tag. *)
Inductive value :=
| VString (s : string)
| VBool (b : bool).

Definition object := list (string * value).

Definition RuneSelf : N := 128.
Definition RuneError : N := 65533.

(** [htmlSafeSet]: the ASCII bytes written as they are. Everything from
    the space on, except the double quote, the backslash and the three
    characters [&], [<] and [>]. *)
Definition htmlSafeSet (b : N) : bool :=
  (32 <=? b)%N && (b <? 128)%N
  && negb ((b =? 34)%N || (b =? 38)%N || (b =? 60)%N || (b =? 62)%N || (b =? 92)%N).

Definition hex (n : N) : ascii :=
  nth (N.to_nat n) (list_ascii_of_string "0123456789abcdef") "0"%char.

(** The escape of an ASCII byte that is not in [htmlSafeSet]; the short
    forms of the backspace and of the form feed are those of Go 1.22 and
    later. *)
Definition escape (b : N) : string :=
  if ((b =? 92)%N || (b =? 34)%N)%bool then String "\" (String (ascii_of_N b) "")
  else if (b =? 8)%N then "\b"
  else if (b =? 12)%N then "\f"
  else if (b =? 10)%N then "\n"
  else if (b =? 13)%N then "\r"
  else if (b =? 9)%N then "\t"
  else "\u00" ++ String (hex (N.shiftr b 4)) (String (hex (N.land b 15)) "").

(** [utf8.first] and [utf8.acceptRanges]: for a leading byte, the length of
    the sequence and the range the second byte must lie in; [None] for a
    byte that cannot start a sequence of two bytes or more. *)
Definition first (s0 : N) : option (nat * N * N) :=
  if (s0 <? 194)%N then None
  else if (s0 <? 224)%N then Some (2%nat, 128, 191)%N
  else if (s0 =? 224)%N then Some (3%nat, 160, 191)%N
  else if (s0 <? 237)%N then Some (3%nat, 128, 191)%N
  else if (s0 =? 237)%N then Some (3%nat, 128, 159)%N
  else if (s0 <? 240)%N then Some (3%nat, 128, 191)%N
  else if (s0 =? 240)%N then Some (4%nat, 144, 191)%N
  else if (s0 <? 244)%N then Some (4%nat, 128, 191)%N
  else if (s0 =? 244)%N then Some (4%nat, 128, 143)%N
  else None.

Definition continuation (b : N) : bool := (128 <=? b)%N && (b <=? 191)%N.

(** [utf8.DecodeRuneInString]: the first rune of [s] and its width in
    bytes; [(RuneError, 1)] for an encoding that is not valid. *)
Definition DecodeRuneInString (s : string) : N * nat :=
  match s with
  | EmptyString => (RuneError, 0%nat)
  | String a0 t0 =>
      let s0 := N_of_ascii a0 in
      if (s0 <? RuneSelf)%N then (s0, 1%nat)
      else
        match first s0 with
        | None => (RuneError, 1%nat)
        | Some (sz, lo, hi) =>
            if (String.length s <? sz)%nat then (RuneError, 1%nat)
            else
              match t0 with
              | EmptyString => (RuneError, 1%nat)
              | String a1 t1 =>
                  let s1 := N_of_ascii a1 in
                  if ((s1 <? lo)%N || (hi <? s1)%N)%bool then (RuneError, 1%nat)
                  else if (sz <=? 2)%nat
                  then (N.lor (N.shiftl (N.land s0 31) 6) (N.land s1 63), 2%nat)
                  else
                    match t1 with
                    | EmptyString => (RuneError, 1%nat)
                    | String a2 t2 =>
                        let s2 := N_of_ascii a2 in
                        if negb (continuation s2) then (RuneError, 1%nat)
                        else if (sz <=? 3)%nat
                        then (N.lor (N.shiftl (N.land s0 15) 12)
                                (N.lor (N.shiftl (N.land s1 63) 6) (N.land s2 63)),
                              3%nat)
                        else
                          match t2 with
                          | EmptyString => (RuneError, 1%nat)
                          | String a3 _ =>
                              let s3 := N_of_ascii a3 in
                              if negb (continuation s3) then (RuneError, 1%nat)
                              else (N.lor (N.shiftl (N.land s0 7) 18)
                                      (N.lor (N.shiftl (N.land s1 63) 12)
                                         (N.lor (N.shiftl (N.land s2 63) 6)
                                            (N.land s3 63))),
                                    4%nat)
                          end
                    end
              end
        end
  end.

(** What stands for a byte sequence that is not valid UTF-8: the escape
    of U+FFFD, six ASCII bytes. *)
Definition replacement : string := "\u" ++ "fffd".

(** Where the scan of [appendString] stands: at the start of a rune
    ([Copy 0]), or inside a rune it has decoded, whose remaining [n] bytes
    are copied ([Copy n]) or were replaced by an escape ([Drop n]). *)
Inductive cursor :=
| Copy (n : nat)
| Drop (n : nat).

(** The loop of [appendString] with [escapeHTML] set, as [Marshal] calls it.
    The index [i] of the source advances by the width of the rune it
    decodes; here the bytes of that rune are walked one by one. *)
Fixpoint appendString_loop (c : cursor) (src : string) : string :=
  match src with
  | EmptyString => EmptyString
  | String a rest =>
      match c with
      | Copy (S k) => String a (appendString_loop (Copy k) rest)
      | Drop (S k) => appendString_loop (Drop k) rest
      | _ =>
          let b := N_of_ascii a in
          if (b <? RuneSelf)%N then
            if htmlSafeSet b then String a (appendString_loop (Copy 0) rest)
            else escape b ++ appendString_loop (Copy 0) rest
          else
            let '(r, size) := DecodeRuneInString src in
            if ((r =? RuneError)%N && (size =? 1)%nat)%bool
            then replacement ++ appendString_loop (Copy 0) rest
            else if ((r =? 8232)%N || (r =? 8233)%N)%bool
            then "\u202" ++ String (hex (N.land r 15))
                   (appendString_loop (Drop (size - 1)) rest)
            else String a (appendString_loop (Copy (size - 1)) rest)
      end
  end.

Definition appendString (src : string) : string :=
  quoted (appendString_loop (Copy 0) src).

Definition encodeValue (v : value) : string :=
  match v with
  | VString s => appendString s
  | VBool true => "true"
  | VBool false => "false"
  end.

(** [structEncoder.encode]: an opening brace, the fields separated by
    commas, each as its quoted name, a colon and its value, and a closing
    brace. The name of a field is written with the escapes of a string; a
    valid tag has no byte on which that differs from what the encoder
    prepares for it. *)
Fixpoint encodeFields (first : bool) (fs : object) : string :=
  match fs with
  | [] => ""
  | (name, v) :: rest =>
      (if first then "" else ",")
      ++ appendString name ++ ":" ++ encodeValue v
      ++ encodeFields false rest
  end.

Definition encodeStruct (fs : object) : string :=
  "{" ++ encodeFields true fs ++ "}".

(** The error of a failed [Marshal], by its message. *)
Definition error := string.

(** [json.Marshal], on the reflected view of a struct: the bytes, or an
    error. The package calls it through this interface, so that the branch
    it takes on an error can be stated for a marshaller that fails. *)
Class Marshaler := { Marshal : object -> string + error }.

(** The marshaller of the standard library. The structs of this package
    hold strings and booleans only: no value of theirs makes it fail. *)
#[global] Instance std : Marshaler := {| Marshal fs := inl (encodeStruct fs) |}.

End json.

(* ================================================================= *)
(** ** Packages [internal] and [events] *)

Module internal.

(** Modelled from the spec: the constant [DebugEventMessageNamespace] of
    package [internal] is declared outside this package; section 8 of the
    specification and the expected payloads of [analytics_test.go] give
    its value. *)
Definition DebugEventMessageNamespace : string := "nordvpn-linux".

End internal.

Module events.

(** Modelled from the spec: the types [ContextValue] and [DebuggerEvent]
    of package [events] and the builder methods of the latter are declared
    outside this package. A context value is a path with a value of any
    type (a string or a boolean here); a debugger event is the JSON
    payload, the context pairs and the names of the global context paths,
    and each builder appends to its list. *)
Inductive any :=
| AString (s : string)
| ABool (b : bool).

Record ContextValue := { Path : string; Value : any }.

Record DebuggerEvent := {
  JsonData : string;
  KeyBasedContextPaths : list ContextValue;
  GlobalContextPaths : list string
}.

Definition NewDebuggerEvent (jsonData : string) : DebuggerEvent :=
  {| JsonData := jsonData; KeyBasedContextPaths := []; GlobalContextPaths := [] |}.

Definition WithKeyBasedContextPaths (contextValues : list ContextValue)
    (e : DebuggerEvent) : DebuggerEvent :=
  {| JsonData := JsonData e;
     KeyBasedContextPaths := KeyBasedContextPaths e ++ contextValues;
     GlobalContextPaths := GlobalContextPaths e |}.

Definition WithGlobalContextPaths (paths : list string)
    (e : DebuggerEvent) : DebuggerEvent :=
  {| JsonData := JsonData e;
     KeyBasedContextPaths := KeyBasedContextPaths e;
     GlobalContextPaths := GlobalContextPaths e ++ paths |}.

(** Modelled from the spec: the interface [Publisher] has the one method
    [Publish], which takes a finished event and returns nothing; [P] is the
    state of whatever stands behind it. *)
Class Publisher (P : Type) := { Publish : DebuggerEvent -> P -> P }.

End events.

Import events.

(* ================================================================= *)
(** ** The event model *)

Definition globalPaths : list string :=
  [ "device.*";
    "application.nordvpnapp.*";
    "application.nordvpnapp.version";
    "application.nordvpnapp.platform" ].

Definition debuggerEventBaseKey : string := "dns".
Definition debuggerEventTypeKey : string := "type".
Definition debuggerEventManagementServiceKey : string := "management_service".
Definition debuggerEventErrorTypeKey : string := "error_type".
Definition debuggerEventCriticalKey : string := "critical".

Record event := {
  Event : string;
  MessageNamespace : string;
  ManagementService : string
}.

(** The struct tags of [event]. *)
Definition event_fields (e : event) : json.object :=
  [ ("event", json.VString (Event e));
    ("namespace", json.VString (MessageNamespace e));
    ("management_service", json.VString (ManagementService e)) ].

(** The parameter [messageNamespace] is not used: the namespace is always
    the constant of package [internal]. *)
Definition newEvent (eventType : eventType) (messageNamespace : string)
    (managementService : dnsManagementService) : event :=
  {| Event := eventType_String eventType;
     MessageNamespace := internal.DebugEventMessageNamespace;
     ManagementService := dnsManagementService_String managementService |}.

Definition event_toContextPaths (e : event) : list ContextValue :=
  [ {| Path := debuggerEventBaseKey ++ "." ++ debuggerEventTypeKey;
       Value := AString (Event e) |};
    {| Path := debuggerEventBaseKey ++ "." ++ debuggerEventManagementServiceKey;
       Value := AString (ManagementService e) |} ].

(** [errorEvent] embeds [event]: the field [errorEvent_event]. *)
Record errorEvent := {
  errorEvent_event : event;
  ErrorType : string;
  Critical : bool
}.

(** The fields of the embedded struct are promoted and come first; the tag
    of [Critical] is spelled [cricital]. *)
Definition errorEvent_fields (e : errorEvent) : json.object :=
  (event_fields (errorEvent_event e)
   ++ [ ("error_type", json.VString (ErrorType e));
        ("cricital", json.VBool (Critical e)) ])%list.

Definition newErrorEvent (eventType : eventType) (messageNamespace : string)
    (managementService : dnsManagementService) (errorType : errorType)
    (critical : bool) : errorEvent :=
  {| errorEvent_event := newEvent eventType messageNamespace managementService;
     ErrorType := errorType_String errorType;
     Critical := critical |}.

Definition errorEvent_toContextPaths (e : errorEvent) : list ContextValue :=
  let contextPaths :=
    [ {| Path := debuggerEventBaseKey ++ "." ++ debuggerEventErrorTypeKey;
         Value := AString (ErrorType e) |};
      {| Path := debuggerEventBaseKey ++ "." ++ debuggerEventCriticalKey;
         Value := ABool (Critical e) |} ] in
  (contextPaths ++ event_toContextPaths (errorEvent_event e))%list.

(* ================================================================= *)
(** ** Programs over a mutable object *)

(** How a call ends: it returns a value and leaves a state; or it waits
    forever for a mutex nobody releases; or the runtime stops the process. *)
Inductive outcome (S A : Type) :=
| Done (a : A) (s : S)
| Blocked
| Fatal (msg : string).

Arguments Done {S A} a s.
Arguments Blocked {S A}.
Arguments Fatal {S A} msg.

Definition M (S A : Type) : Type := S -> outcome S A.

Definition ret {S A} (a : A) : M S A := fun s => Done a s.

Definition bind {S A B} (c : M S A) (k : A -> M S B) : M S B :=
  fun s =>
    match c s with
    | Done a s' => k a s'
    | Blocked => Blocked
    | Fatal msg => Fatal msg
    end.

Declare Scope prog_scope.
Delimit Scope prog_scope with prog.
Notation "x <- c ;; k" := (bind c (fun x => k))
  (at level 61, c at next level, right associativity) : prog_scope.
Notation "c ;; k" := (bind c (fun _ => k))
  (at level 61, right associativity) : prog_scope.

(** [defer cleanup] in front of [body]: the deferred call runs when the body
    has returned, just before the function hands back its result. *)
Definition defer {S A} (cleanup : M S unit) (body : M S A) : M S A :=
  (r <- body ;; cleanup ;; ret r)%prog.

(** The state a call ended in, and whether it returned. *)
Definition final {S A} (o : outcome S A) : option S :=
  match o with
  | Done _ s => Some s
  | _ => None
  end.

(* ================================================================= *)
(** ** The analytics reporter *)

(** The lines the package writes to the log, by the place that writes them;
    the prefixes come from constants declared elsewhere and are left out. *)
Inductive logLine :=
| FailedToSerializeEvent (err : json.error)
| FailedToSerializeErrorEvent (err : json.error)
| PublishingEvent (debuggerEvent : DebuggerEvent).

(** What a call does that another party can observe, in the order it does
    it. *)
Inductive action :=
| Lock
| Unlock
| Log (line : logLine)
| PublishCall (debuggerEvent : DebuggerEvent).

(** The interface [analytics]; [S] is the state of the object behind it. *)
Class analytics (S : Type) := {
  setManagementService : dnsManagementService -> M S unit;
  emitResolvConfOverwrittenEvent : M S unit;
  emitDNSConfiguredEvent : M S unit;
  emitDNSConfigurationErrorEvent : errorType -> bool -> M S unit
}.

Section Reporter.

Context {P : Type} {Pub : Publisher P} {Mar : json.Marshaler}.

(** [mu] is [true] while the mutex is locked. *)
Record dnsAnalytics := {
  mu : bool;
  debugPublisher : P;
  managementService : dnsManagementService
}.

(** The reporter and the trace of what its methods have done so far,
    oldest action first. *)
Record world := {
  this : dnsAnalytics;
  trace : list action
}.

Definition record (a : action) (w : world) : world :=
  {| this := this w; trace := trace w ++ [a] |}.

Definition log_Println (line : logLine) : M world unit :=
  fun w => Done tt (record (Log line) w).

(** [sync.Mutex.Lock]: a second lock from the same caller never returns. *)
Definition mu_Lock : M world unit :=
  fun w =>
    if mu (this w) then Blocked
    else Done tt (record Lock
           {| this := {| mu := true;
                         debugPublisher := debugPublisher (this w);
                         managementService := managementService (this w) |};
              trace := trace w |}).

(** [sync.Mutex.Unlock]: unlocking a mutex that is not locked is a fatal
    error of the runtime. *)
Definition mu_Unlock : M world unit :=
  fun w =>
    if mu (this w)
    then Done tt (record Unlock
           {| this := {| mu := false;
                         debugPublisher := debugPublisher (this w);
                         managementService := managementService (this w) |};
              trace := trace w |})
    else Fatal "sync: unlock of unlocked mutex".

Definition load_managementService : M world dnsManagementService :=
  fun w => Done (managementService (this w)) w.

Definition store_managementService (v : dnsManagementService) : M world unit :=
  fun w =>
    Done tt {| this := {| mu := mu (this w);
                          debugPublisher := debugPublisher (this w);
                          managementService := v |};
               trace := trace w |}.

Definition debugPublisher_Publish (debuggerEvent : DebuggerEvent) : M world unit :=
  fun w =>
    Done tt (record (PublishCall debuggerEvent)
      {| this := {| mu := mu (this w);
                    debugPublisher := Publish debuggerEvent (debugPublisher (this w));
                    managementService := managementService (this w) |};
         trace := trace w |}).

Definition event_toDebuggerEvent (e : event) : M world DebuggerEvent :=
  (jsonData <-
     match json.Marshal (event_fields e) with
     | inl jsonData => ret jsonData
     | inr err => log_Println (FailedToSerializeEvent err) ;; ret "{}"
     end ;;
   ret (WithGlobalContextPaths globalPaths
          (WithKeyBasedContextPaths (event_toContextPaths e)
             (NewDebuggerEvent jsonData))))%prog.

Definition errorEvent_toDebuggerEvent (e : errorEvent) : M world DebuggerEvent :=
  (jsonData <-
     match json.Marshal (errorEvent_fields e) with
     | inl jsonData => ret jsonData
     | inr err => log_Println (FailedToSerializeErrorEvent err) ;; ret "{}"
     end ;;
   ret (WithGlobalContextPaths globalPaths
          (WithKeyBasedContextPaths (errorEvent_toContextPaths e)
             (NewDebuggerEvent jsonData))))%prog.

Definition newDNSAnalytics (publisher : P) : dnsAnalytics :=
  {| mu := false;
     debugPublisher := publisher;
     managementService := unknownService |}.

Definition dnsAnalytics_setManagementService
    (managementService : dnsManagementService) : M world unit :=
  (mu_Lock ;;
   defer mu_Unlock
     (store_managementService managementService))%prog.

Definition dnsAnalytics_emitResolvConfOverwrittenEvent : M world unit :=
  (mu_Lock ;;
   defer mu_Unlock
     (service <- load_managementService ;;
      debuggerEvent <-
        event_toDebuggerEvent
          (newEvent resolvConfOverwrittenEventType
             internal.DebugEventMessageNamespace service) ;;
      log_Println (PublishingEvent debuggerEvent) ;;
      debugPublisher_Publish debuggerEvent))%prog.

Definition dnsAnalytics_emitDNSConfiguredEvent : M world unit :=
  (mu_Lock ;;
   defer mu_Unlock
     (service <- load_managementService ;;
      debuggerEvent <-
        event_toDebuggerEvent
          (newEvent dnsConfiguredEventType
             internal.DebugEventMessageNamespace service) ;;
      log_Println (PublishingEvent debuggerEvent) ;;
      debugPublisher_Publish debuggerEvent))%prog.

Definition dnsAnalytics_emitDNSConfigurationErrorEvent
    (errorType : errorType) (critical : bool) : M world unit :=
  (mu_Lock ;;
   defer mu_Unlock
     (service <- load_managementService ;;
      debuggerEvent <-
        errorEvent_toDebuggerEvent
          (newErrorEvent dnsConfigurationErrorEventType
             internal.DebugEventMessageNamespace service errorType critical) ;;
      log_Println (PublishingEvent debuggerEvent) ;;
      debugPublisher_Publish debuggerEvent))%prog.

#[export] Instance dnsAnalytics_analytics : analytics world := {|
  setManagementService := dnsAnalytics_setManagementService;
  emitResolvConfOverwrittenEvent := dnsAnalytics_emitResolvConfOverwrittenEvent;
  emitDNSConfiguredEvent := dnsAnalytics_emitDNSConfiguredEvent;
  emitDNSConfigurationErrorEvent := dnsAnalytics_emitDNSConfigurationErrorEvent
|}.

End Reporter.

Arguments dnsAnalytics P : clear implicits.
Arguments world P : clear implicits.

(** A publisher that keeps what it was given, newest first: the mock
    publisher of the tests, whose [PopEvent] takes from the top. *)
#[export] Instance MockPublisher : Publisher (list DebuggerEvent) :=
  {| Publish e stack := e :: stack |}.


(* ================================================================= *)
(** ** The analytics mock of the monitor's test *)

Record mockErrorEvent := {
  mock_errorType : errorType;
  mock_critical : bool
}.

Record analyticsMock := {
  resolvConfEventEmitted : bool;
  dnsConfiguredEmited : bool;
  mock_managementService : dnsManagementService;
  emittedErrors : list mockErrorEvent
}.

(** The zero value of the struct. *)
Definition newAnalyticsMock : analyticsMock :=
  {| resolvConfEventEmitted := false;
     dnsConfiguredEmited := false;
     mock_managementService := 0%Z;
     emittedErrors := [] |}.

Definition analyticsMock_setManagementService
    (managementService : dnsManagementService) : M analyticsMock unit :=
  fun a =>
    Done tt {| resolvConfEventEmitted := resolvConfEventEmitted a;
               dnsConfiguredEmited := dnsConfiguredEmited a;
               mock_managementService := managementService;
               emittedErrors := emittedErrors a |}.

Definition analyticsMock_emitResolvConfOverwrittenEvent : M analyticsMock unit :=
  fun a =>
    Done tt {| resolvConfEventEmitted := true;
               dnsConfiguredEmited := dnsConfiguredEmited a;
               mock_managementService := mock_managementService a;
               emittedErrors := emittedErrors a |}.

Definition analyticsMock_emitDNSConfiguredEvent : M analyticsMock unit :=
  fun a =>
    Done tt {| resolvConfEventEmitted := resolvConfEventEmitted a;
               dnsConfiguredEmited := true;
               mock_managementService := mock_managementService a;
               emittedErrors := emittedErrors a |}.

Definition analyticsMock_emitDNSConfigurationErrorEvent
    (errorType : errorType) (critical : bool) : M analyticsMock unit :=
  fun a =>
    Done tt {| resolvConfEventEmitted := resolvConfEventEmitted a;
               dnsConfiguredEmited := dnsConfiguredEmited a;
               mock_managementService := mock_managementService a;
               emittedErrors :=
                 emittedErrors a
                 ++ [ {| mock_errorType := errorType; mock_critical := critical |} ] |}.

#[export] Instance analyticsMock_analytics : analytics analyticsMock := {|
  setManagementService := analyticsMock_setManagementService;
  emitResolvConfOverwrittenEvent := analyticsMock_emitResolvConfOverwrittenEvent;
  emitDNSConfiguredEvent := analyticsMock_emitDNSConfiguredEvent;
  emitDNSConfigurationErrorEvent := analyticsMock_emitDNSConfigurationErrorEvent
|}.

(* ================================================================= *)
(** ** The resolv.conf monitor *)

Module fsnotify.

(** The notification of the watcher library: the name of the file and a
    set of operation bits. The zero value names no file and has no bit
    set. *)
Definition Create : N := 1.
Definition Write : N := 2.
Definition Remove : N := 4.
Definition Rename : N := 8.
Definition Chmod : N := 16.

Record Event := { Name : string; Op : N }.

Definition Has (e : Event) (op : N) : bool := negb (N.land (Op e) op =? 0)%N.

End fsnotify.

Section Monitor.

Context {S : Type} {A : analytics S}.

(** The handle of the operating system's watch: opaque. *)
Variable Watcher : Type.

(** The field [getWatcherFunc] of the monitor: it returns a watcher bound
    to the path, or an error. *)
Variable getWatcherFunc : unit -> Watcher + string.

(** What re-validating the watch finds after a notification: whether the
    watch still targets a live file at the path. *)
Variable watchIsLive : Watcher -> fsnotify.Event -> bool.

Inductive monitorLogLine :=
| WatchSetupFailed (err : string)
| WatcherErrorReported (err : string)
| RearmFailed (err : string).

(** Modelled from the spec: the struct [resolvConfFileWatcherMonitor] and
    its methods are not among the sources, only the test that builds one
    and starts it. Section 4.3 of the specification gives the state: the
    analytics handle and the watch handle the monitor owns, which is
    absent until the watch is set up; the lines it logs are kept too. *)
Record resolvConfFileWatcherMonitor := {
  monitor_analytics : S;
  monitor_watcher : option Watcher;
  monitor_log : list monitorLogLine
}.

(** What the loop of the monitor reads: a raw notification from the
    stream of the watcher, or an error from its stream of errors. *)
Inductive input :=
| Notification (ev : fsnotify.Event)
| WatcherError (err : string).

Definition monitor_Println (line : monitorLogLine)
    : M resolvConfFileWatcherMonitor unit :=
  fun m =>
    Done tt {| monitor_analytics := monitor_analytics m;
               monitor_watcher := monitor_watcher m;
               monitor_log := monitor_log m ++ [line] |}.

Definition set_watcher (w : Watcher) : M resolvConfFileWatcherMonitor unit :=
  fun m =>
    Done tt {| monitor_analytics := monitor_analytics m;
               monitor_watcher := Some w;
               monitor_log := monitor_log m |}.

(** A call through the analytics handle. *)
Definition on_analytics {A} (c : M S A) : M resolvConfFileWatcherMonitor A :=
  fun m =>
    match c (monitor_analytics m) with
    | Done a s =>
        Done a {| monitor_analytics := s;
                  monitor_watcher := monitor_watcher m;
                  monitor_log := monitor_log m |}
    | Blocked => Blocked
    | Fatal msg => Fatal msg
    end.

(** Modelled from the spec: re-arming. After a notification that could
    correspond to the replacement of the file (its removal or its
    renaming), the monitor checks that the watch still targets a live file
    and sets up a new watch if it does not; a failure is logged and the
    loop goes on. *)
Definition rearm (w : Watcher) (ev : fsnotify.Event)
    : M resolvConfFileWatcherMonitor unit :=
  if (fsnotify.Has ev fsnotify.Remove || fsnotify.Has ev fsnotify.Rename)%bool
  then
    if watchIsLive w ev then ret tt
    else
      match getWatcherFunc tt with
      | inl w' => set_watcher w'
      | inr err => monitor_Println (RearmFailed err)
      end
  else ret tt.

(** Modelled from the spec: one turn of the loop. Any notification, of
    whatever kind, is a trigger to call [emitResolvConfOverwrittenEvent];
    an error of the watcher is logged and is not fatal. *)
Definition monitor_step (w : Watcher) (i : input)
    : M resolvConfFileWatcherMonitor unit :=
  match i with
  | Notification ev =>
      (on_analytics emitResolvConfOverwrittenEvent ;;
       rearm w ev)%prog
  | WatcherError err => monitor_Println (WatcherErrorReported err)
  end.

(** Modelled from the spec: the loop, on the inputs delivered to it so
    far. Without a watch there is no loop, and nothing is read. *)
Fixpoint monitor_loop (inputs : list input)
    : M resolvConfFileWatcherMonitor unit :=
  match inputs with
  | [] => ret tt
  | i :: rest =>
      fun m =>
        match monitor_watcher m with
        | None => Done tt m
        | Some w => (monitor_step w i ;; monitor_loop rest)%prog m
        end
  end.

(** Modelled from the spec: [Start] sets up the watch; a failure is
    reported once and the monitor does not run its loop. *)
Definition Start : M resolvConfFileWatcherMonitor unit :=
  match getWatcherFunc tt with
  | inl w => set_watcher w
  | inr err => monitor_Println (WatchSetupFailed err)
  end.

End Monitor.

Arguments resolvConfFileWatcherMonitor S Watcher : clear implicits.
Arguments monitor_analytics {S Watcher} _.
Arguments monitor_watcher {S Watcher} _.
Arguments monitor_log {S Watcher} _.
Arguments monitor_loop {S A Watcher} getWatcherFunc watchIsLive inputs.
Arguments monitor_step {S A Watcher} getWatcherFunc watchIsLive w i.
Arguments rearm {S Watcher} getWatcherFunc watchIsLive w ev.
Arguments Start {S Watcher} getWatcherFunc.

(* ================================================================= *)
(** ** The payload formats and what is read off a trace *)

(** The payload of a plain event, for the display names of its type and of
    the management service. *)
Definition plain_payload (eventName serviceName : string) : string :=
  json_lit "{'event':'" ++ eventName
  ++ json_lit "','namespace':'nordvpn-linux','management_service':'" ++ serviceName
  ++ json_lit "'}".

(** The payload of an error event; the last key is spelled [cricital]. *)
Definition error_payload (serviceName errorName : string) (critical : bool) : string :=
  json_lit "{'event':'dns_configuration_error','namespace':'nordvpn-linux','management_service':'"
  ++ serviceName
  ++ json_lit "','error_type':'" ++ errorName
  ++ json_lit "','cricital':" ++ (if critical then "true" else "false")
  ++ "}".

(** A string [appendString] writes between the quotes as it is. *)
Fixpoint plain (s : string) : bool :=
  match s with
  | EmptyString => true
  | String a rest => json.htmlSafeSet (N_of_ascii a) && plain rest
  end.

(** The calls of the interface [analytics], as data. *)
Inductive call :=
| SetManagementService (managementService : dnsManagementService)
| EmitResolvConfOverwrittenEvent
| EmitDNSConfiguredEvent
| EmitDNSConfigurationErrorEvent (errorType : errorType) (critical : bool).

Definition is_emit (c : call) : bool :=
  match c with
  | SetManagementService _ => false
  | _ => true
  end.

Definition perform {S} {A : analytics S} (c : call) : M S unit :=
  match c with
  | SetManagementService s => setManagementService s
  | EmitResolvConfOverwrittenEvent => emitResolvConfOverwrittenEvent
  | EmitDNSConfiguredEvent => emitDNSConfiguredEvent
  | EmitDNSConfigurationErrorEvent e c => emitDNSConfigurationErrorEvent e c
  end.

(** Calls made one after the other by a single caller. *)
Fixpoint perform_all {S} {A : analytics S} (cs : list call) : M S unit :=
  match cs with
  | [] => ret tt
  | c :: rest => (perform c ;; perform_all rest)%prog
  end.

(** The payload an emit call is to publish when the management service has
    the display name [serviceName]. *)
Definition payload_of (c : call) (serviceName : string) : string :=
  match c with
  | SetManagementService _ => ""
  | EmitResolvConfOverwrittenEvent =>
      plain_payload "resolvconf_overwritten" serviceName
  | EmitDNSConfiguredEvent =>
      plain_payload "dns_configured" serviceName
  | EmitDNSConfigurationErrorEvent e critical =>
      error_payload serviceName (errorType_String e) critical
  end.

(** The payloads a sequence of calls is to publish, each with the name of
    the service set last before it; [current] is the service at the start. *)
Fixpoint payloads_of (current : dnsManagementService) (cs : list call) : list string :=
  match cs with
  | [] => []
  | SetManagementService s :: rest => payloads_of s rest
  | c :: rest =>
      payload_of c (dnsManagementService_String current) :: payloads_of current rest
  end.

(** The events handed to [Publish] in a trace, oldest first. *)
Fixpoint published (t : list action) : list DebuggerEvent :=
  match t with
  | [] => []
  | PublishCall e :: rest => e :: published rest
  | _ :: rest => published rest
  end.

(** Whether every [Publish] call of a trace is made while the mutex is not
    held; [held] tells whether it is held where the trace starts. *)
Fixpoint publishes_unlocked (held : bool) (t : list action) : bool :=
  match t with
  | [] => true
  | Lock :: rest => publishes_unlocked true rest
  | Unlock :: rest => publishes_unlocked false rest
  | Log _ :: rest => publishes_unlocked held rest
  | PublishCall _ :: rest => negb held && publishes_unlocked held rest
  end.

(** What an emit call builds from the management service it reads: the
    struct it marshals, by its fields, and the context pairs of the struct.
    [SetManagementService] builds nothing. *)
Definition call_fields (c : call) (service : dnsManagementService) : json.object :=
  match c with
  | SetManagementService _ => []
  | EmitResolvConfOverwrittenEvent =>
      event_fields
        (newEvent resolvConfOverwrittenEventType internal.DebugEventMessageNamespace service)
  | EmitDNSConfiguredEvent =>
      event_fields
        (newEvent dnsConfiguredEventType internal.DebugEventMessageNamespace service)
  | EmitDNSConfigurationErrorEvent e critical =>
      errorEvent_fields
        (newErrorEvent dnsConfigurationErrorEventType
           internal.DebugEventMessageNamespace service e critical)
  end.

Definition call_contextPaths (c : call) (service : dnsManagementService)
    : list ContextValue :=
  match c with
  | SetManagementService _ => []
  | EmitResolvConfOverwrittenEvent =>
      event_toContextPaths
        (newEvent resolvConfOverwrittenEventType internal.DebugEventMessageNamespace service)
  | EmitDNSConfiguredEvent =>
      event_toContextPaths
        (newEvent dnsConfiguredEventType internal.DebugEventMessageNamespace service)
  | EmitDNSConfigurationErrorEvent e critical =>
      errorEvent_toContextPaths
        (newErrorEvent dnsConfigurationErrorEventType
           internal.DebugEventMessageNamespace service e critical)
  end.

Section Built.

Context `{json.Marshaler}.

(** The payload of a struct: its JSON, or the empty object when the
    marshaller fails. *)
Definition jsonData_of (fs : json.object) : string :=
  match json.Marshal fs with
  | inl jsonData => jsonData
  | inr _ => "{}"
  end.

(** The line logged when the marshaller fails, if it does. *)
Definition failure_of (line : json.error -> logLine) (fs : json.object)
    : list action :=
  match json.Marshal fs with
  | inl _ => []
  | inr err => [Log (line err)]
  end.

(** The event an emit call hands to the publisher. *)
Definition call_event (c : call) (service : dnsManagementService) : DebuggerEvent :=
  {| JsonData := jsonData_of (call_fields c service);
     KeyBasedContextPaths := call_contextPaths c service;
     GlobalContextPaths := globalPaths |}.

Definition call_failure (c : call) (service : dnsManagementService) : list action :=
  match c with
  | EmitDNSConfigurationErrorEvent _ _ =>
      failure_of FailedToSerializeErrorEvent (call_fields c service)
  | _ => failure_of FailedToSerializeEvent (call_fields c service)
  end.

End Built.

(** A marshaller that fails on every value. *)
Definition failingMarshaler : json.Marshaler :=
  {| json.Marshal := fun _ => inr "json: unsupported value" |}.

(** The watcher function of [Test_ResolvConfMonitoring]: it always returns a
    watcher and no error. *)
Definition getMockWatcherFunc : unit -> unit + string := fun _ => inl tt.

(** A fresh reporter on the mock publisher, with nothing done yet. *)
Definition fresh : world (list DebuggerEvent) :=
  {| this := newDNSAnalytics []; trace := [] |}.

(* ================================================================= *)
(** ** Sequences of calls, read as data *)

(** The bytes of the display names: lowercase letters, digits, the hyphen
    and the underscore. *)
Definition name_char (a : ascii) : bool :=
  let b := N_of_ascii a in
  ((97 <=? b)%N && (b <=? 122)%N) || ((48 <=? b)%N && (b <=? 57)%N)
  || (b =? 45)%N || (b =? 95)%N.

Fixpoint all_chars (p : ascii -> bool) (s : string) : bool :=
  match s with
  | EmptyString => true
  | String a rest => p a && all_chars p rest
  end.

(** The management service the reporter holds after the calls, when it held
    [current] before them. *)
Fixpoint service_after (current : dnsManagementService) (cs : list call)
    : dnsManagementService :=
  match cs with
  | [] => current
  | SetManagementService s :: rest => service_after s rest
  | _ :: rest => service_after current rest
  end.

Section Traces.

Context {Mar : json.Marshaler}.

(** The events the calls hand to the publisher, oldest first. *)
Fixpoint events_of (current : dnsManagementService) (cs : list call)
    : list DebuggerEvent :=
  match cs with
  | [] => []
  | SetManagementService s :: rest => events_of s rest
  | c :: rest => call_event c current :: events_of current rest
  end.

(** What one call adds to the trace. *)
Definition call_trace (c : call) (current : dnsManagementService) : list action :=
  match c with
  | SetManagementService _ => [Lock; Unlock]
  | _ =>
      Lock :: call_failure c current
      ++ [ Log (PublishingEvent (call_event c current));
           PublishCall (call_event c current);
           Unlock ]
  end.

Fixpoint trace_of (current : dnsManagementService) (cs : list call) : list action :=
  match cs with
  | [] => []
  | c :: rest => call_trace c current ++ trace_of (service_after current [c]) rest
  end.

End Traces.

(** The mutex run over a trace: the state it ends in, or [None] when the
    trace locks a held mutex, unlocks a free one, or publishes while the
    mutex is free. *)
Fixpoint lock_discipline (held : bool) (t : list action) : option bool :=
  match t with
  | [] => Some held
  | Lock :: rest => if held then None else lock_discipline true rest
  | Unlock :: rest => if held then lock_discipline false rest else None
  | Log _ :: rest => lock_discipline held rest
  | PublishCall _ :: rest => if held then lock_discipline held rest else None
  end.

(** What the mock of the analytics keeps of a sequence of calls. *)
Definition is_overwritten (c : call) : bool :=
  match c with
  | EmitResolvConfOverwrittenEvent => true
  | _ => false
  end.

Definition is_configured (c : call) : bool :=
  match c with
  | EmitDNSConfiguredEvent => true
  | _ => false
  end.

Fixpoint errors_of (cs : list call) : list mockErrorEvent :=
  match cs with
  | [] => []
  | EmitDNSConfigurationErrorEvent e critical :: rest =>
      {| mock_errorType := e; mock_critical := critical |} :: errors_of rest
  | _ :: rest => errors_of rest
  end.

(* ================================================================= *)
(** * Properties *)

(** ** Strings *)

Lemma append_assoc (a b c : string) : (a ++ b) ++ c = a ++ (b ++ c).
Proof. induction a as [|x a IH]; simpl; [reflexivity | now rewrite IH]. Qed.

Lemma append_String (x : ascii) (a b : string) : String x a ++ b = String x (a ++ b).
Proof. reflexivity. Qed.

Lemma append_nil_l (a : string) : "" ++ a = a.
Proof. reflexivity. Qed.

(** Brings a concatenation to the form [String c1 (... (s ++ String ck ...))]. *)
Ltac flatten_strings :=
  repeat (rewrite ?append_assoc, ?append_String, ?append_nil_l; cbn [append]).

Lemma htmlSafeSet_ascii (b : N) : json.htmlSafeSet b = true -> (b <? json.RuneSelf)%N = true.
Proof.
  unfold json.htmlSafeSet, json.RuneSelf. intros Hs.
  apply andb_prop in Hs as [Hs _]. apply andb_prop in Hs as [_ Hs]. exact Hs.
Qed.

(** A string of safe bytes is written as it is. *)
Lemma appendString_loop_plain (s : string) :
  plain s = true -> json.appendString_loop (json.Copy 0) s = s.
Proof.
  induction s as [|a s IH]; simpl; intros Hp; [reflexivity|].
  apply andb_prop in Hp as [Ha Hs].
  rewrite (htmlSafeSet_ascii _ Ha), Ha, (IH Hs). reflexivity.
Qed.

Lemma appendString_plain (s : string) :
  plain s = true -> json.appendString s = quoted s.
Proof. intros Hp. unfold json.appendString. now rewrite appendString_loop_plain. Qed.

(** ** Decimal rendering and display names *)

Lemma string_of_uint_plain (d : Decimal.uint) : plain (NilEmpty.string_of_uint d) = true.
Proof. induction d; simpl; try reflexivity; exact IHd. Qed.

Lemma NilZero_string_of_uint_plain (d : Decimal.uint) :
  plain (NilZero.string_of_uint d) = true.
Proof.
  unfold NilZero.string_of_uint. destruct d; try reflexivity;
    apply (string_of_uint_plain (_ d)).
Qed.

Lemma Sprintf_d_plain (e : Z) : plain (Sprintf_d e) = true.
Proof.
  unfold Sprintf_d, NilZero.string_of_int.
  destruct (Z.to_int e); simpl; apply NilZero_string_of_uint_plain.
Qed.

Lemma eventType_String_plain (e : eventType) : plain (eventType_String e) = true.
Proof.
  unfold eventType_String, eventType_case.
  repeat match goal with |- context [if ?c then _ else _] => destruct c end;
    try reflexivity; apply Sprintf_d_plain.
Qed.

Lemma dnsManagementService_String_plain (e : dnsManagementService) :
  plain (dnsManagementService_String e) = true.
Proof.
  unfold dnsManagementService_String, dnsManagementService_case.
  repeat match goal with |- context [if ?c then _ else _] => destruct c end;
    try reflexivity; apply Sprintf_d_plain.
Qed.

Lemma errorType_String_plain (e : errorType) : plain (errorType_String e) = true.
Proof.
  unfold errorType_String, errorType_case.
  repeat match goal with |- context [if ?c then _ else _] => destruct c end;
    try reflexivity; apply Sprintf_d_plain.
Qed.

(** ** The marshalled structs *)

Lemma encodeStruct_event (e : event) :
  plain (Event e) = true -> plain (MessageNamespace e) = true ->
  plain (ManagementService e) = true ->
  json.encodeStruct (event_fields e)
  = json_lit "{'event':'" ++ Event e
    ++ json_lit "','namespace':'" ++ MessageNamespace e
    ++ json_lit "','management_service':'" ++ ManagementService e
    ++ json_lit "'}".
Proof.
  intros He Hn Hs.
  unfold json.encodeStruct, event_fields, json.encodeFields, json.encodeValue.
  rewrite (appendString_plain _ He), (appendString_plain _ Hn), (appendString_plain _ Hs).
  rewrite !appendString_plain by reflexivity.
  unfold quoted. cbn [json_lit Ascii.eqb Bool.eqb].
  flatten_strings. reflexivity.
Qed.

Lemma encodeStruct_errorEvent (e : errorEvent) :
  plain (Event (errorEvent_event e)) = true ->
  plain (MessageNamespace (errorEvent_event e)) = true ->
  plain (ManagementService (errorEvent_event e)) = true ->
  plain (ErrorType e) = true ->
  json.encodeStruct (errorEvent_fields e)
  = json_lit "{'event':'" ++ Event (errorEvent_event e)
    ++ json_lit "','namespace':'" ++ MessageNamespace (errorEvent_event e)
    ++ json_lit "','management_service':'" ++ ManagementService (errorEvent_event e)
    ++ json_lit "','error_type':'" ++ ErrorType e
    ++ json_lit "','cricital':" ++ (if Critical e then "true" else "false")
    ++ "}".
Proof.
  intros He Hn Hs Ht.
  unfold json.encodeStruct, errorEvent_fields, event_fields.
  cbn [app json.encodeFields json.encodeValue].
  rewrite (appendString_plain _ He), (appendString_plain _ Hn),
    (appendString_plain _ Hs), (appendString_plain _ Ht).
  rewrite !appendString_plain by reflexivity.
  unfold quoted. cbn [json_lit Ascii.eqb Bool.eqb].
  destruct (Critical e); flatten_strings; reflexivity.
Qed.

(** The standard marshaller on the struct of a plain event, whatever the
    values of the two enumerations. *)
Lemma Marshal_newEvent (et : eventType) (ns : string) (ms : dnsManagementService) :
  json.Marshal (event_fields (newEvent et ns ms))
  = inl (plain_payload (eventType_String et) (dnsManagementService_String ms)).
Proof.
  cbn [json.Marshal json.std]. f_equal.
  rewrite encodeStruct_event; cbn [Event MessageNamespace ManagementService newEvent].
  - unfold plain_payload. cbn [json_lit Ascii.eqb Bool.eqb internal.DebugEventMessageNamespace].
    flatten_strings. reflexivity.
  - apply eventType_String_plain.
  - reflexivity.
  - apply dnsManagementService_String_plain.
Qed.

Lemma Marshal_newErrorEvent (ns : string) (ms : dnsManagementService)
    (e : errorType) (critical : bool) :
  json.Marshal
    (errorEvent_fields (newErrorEvent dnsConfigurationErrorEventType ns ms e critical))
  = inl (error_payload (dnsManagementService_String ms) (errorType_String e) critical).
Proof.
  cbn [json.Marshal json.std]. f_equal.
  rewrite encodeStruct_errorEvent;
    cbn [Event MessageNamespace ManagementService ErrorType Critical
         errorEvent_event newErrorEvent newEvent].
  - unfold error_payload.
    change (eventType_String dnsConfigurationErrorEventType) with "dns_configuration_error".
    cbn [json_lit Ascii.eqb Bool.eqb internal.DebugEventMessageNamespace].
    destruct critical; flatten_strings; reflexivity.
  - reflexivity.
  - reflexivity.
  - apply dnsManagementService_String_plain.
  - apply errorType_String_plain.
Qed.

(** ** Conversion to the publishable form *)

Section Conversion.

Context {P : Type} `{Publisher P} `{json.Marshaler}.

(** The conversion always returns: the payload is the JSON of the struct
    or the empty object, and only a failure of the marshaller adds a line
    to the log. *)
Lemma event_toDebuggerEvent_run (e : event) (w : world P) :
  event_toDebuggerEvent e w
  = Done {| JsonData := jsonData_of (event_fields e);
            KeyBasedContextPaths := event_toContextPaths e;
            GlobalContextPaths := globalPaths |}
         {| this := this w;
            trace := trace w ++ failure_of FailedToSerializeEvent (event_fields e) |}.
Proof.
  unfold event_toDebuggerEvent, jsonData_of, failure_of, bind, ret, log_Println, record.
  destruct (json.Marshal (event_fields e)) as [jsonData|err]; destruct w as [d t]; simpl.
  - now rewrite app_nil_r.
  - reflexivity.
Qed.

Lemma errorEvent_toDebuggerEvent_run (e : errorEvent) (w : world P) :
  errorEvent_toDebuggerEvent e w
  = Done {| JsonData := jsonData_of (errorEvent_fields e);
            KeyBasedContextPaths := errorEvent_toContextPaths e;
            GlobalContextPaths := globalPaths |}
         {| this := this w;
            trace := trace w
                     ++ failure_of FailedToSerializeErrorEvent (errorEvent_fields e) |}.
Proof.
  unfold errorEvent_toDebuggerEvent, jsonData_of, failure_of, bind, ret, log_Println, record.
  destruct (json.Marshal (errorEvent_fields e)) as [jsonData|err]; destruct w as [d t]; simpl.
  - now rewrite app_nil_r.
  - reflexivity.
Qed.

End Conversion.

(** C1. For every event type and every management service among the
    declared constants, [newEvent] followed by [toDebuggerEvent] returns an
    event whose JSON is exactly the plain payload with the display names of
    the two values, keys in the order event, namespace, management_service;
    the state is left as it was. *)
Theorem newEvent_toDebuggerEvent_payload :
  forall (et : eventType) (ms : dnsManagementService) (ns : string),
    In et eventTypes -> In ms dnsManagementServices ->
    forall (P : Type) (w : world P),
    exists debuggerEvent,
      event_toDebuggerEvent (newEvent et ns ms) w = Done debuggerEvent w
      /\ JsonData debuggerEvent
         = plain_payload (eventType_String et) (dnsManagementService_String ms).
Proof.
  intros et ms ns _ _ P w.
  eexists. split.
  - rewrite event_toDebuggerEvent_run. unfold failure_of.
    rewrite Marshal_newEvent, app_nil_r. destruct w; reflexivity.
  - cbn [JsonData]. unfold jsonData_of. now rewrite Marshal_newEvent.
Qed.

Lemma newEvent_toDebuggerEvent_payload_witness :
  exists debuggerEvent,
    event_toDebuggerEvent (newEvent dnsConfiguredEventType "" systemdResolvedService) fresh
    = Done debuggerEvent fresh
    /\ JsonData debuggerEvent
       = json_lit "{'event':'dns_configured','namespace':'nordvpn-linux','management_service':'systemd-resolved'}".
Proof.
  apply (newEvent_toDebuggerEvent_payload dnsConfiguredEventType systemdResolvedService "").
  - simpl. right. left. reflexivity.
  - simpl. left. reflexivity.
Defined.

(** C2. For every management service and error type among the declared
    constants and both values of [critical], [newErrorEvent] for the
    dns_configuration_error type followed by [toDebuggerEvent] returns an
    event whose JSON is exactly the error payload: the five keys in order,
    the last one spelled cricital, its value the lowercase true or false. *)
Theorem newErrorEvent_toDebuggerEvent_payload :
  forall (ms : dnsManagementService) (e : errorType) (critical : bool) (ns : string),
    In ms dnsManagementServices -> In e errorTypes ->
    forall (P : Type) (w : world P),
    exists debuggerEvent,
      errorEvent_toDebuggerEvent
        (newErrorEvent dnsConfigurationErrorEventType ns ms e critical) w
      = Done debuggerEvent w
      /\ JsonData debuggerEvent
         = json_lit "{'event':'dns_configuration_error','namespace':'nordvpn-linux','management_service':'"
           ++ dnsManagementService_String ms
           ++ json_lit "','error_type':'" ++ errorType_String e
           ++ json_lit "','cricital':" ++ (if critical then "true" else "false")
           ++ "}".
Proof.
  intros ms e critical ns _ _ P w.
  eexists. split.
  - rewrite errorEvent_toDebuggerEvent_run. unfold failure_of.
    rewrite Marshal_newErrorEvent, app_nil_r. destruct w; reflexivity.
  - cbn [JsonData]. unfold jsonData_of. now rewrite Marshal_newErrorEvent.
Qed.

Lemma newErrorEvent_toDebuggerEvent_payload_witness :
  exists debuggerEvent,
    errorEvent_toDebuggerEvent
      (newErrorEvent dnsConfigurationErrorEventType "" unmanagedService
         setFailedErrorType false) fresh
    = Done debuggerEvent fresh
    /\ JsonData debuggerEvent
       = json_lit "{'event':'dns_configuration_error','namespace':'nordvpn-linux','management_service':'unmanaged','error_type':'set_failed','cricital':false}".
Proof.
  apply (newErrorEvent_toDebuggerEvent_payload unmanagedService setFailedErrorType false "").
  - simpl. right. left. reflexivity.
  - simpl. left. reflexivity.
Defined.

(** C5. The context pairs of an error event are the two pairs of the error
    followed by the two pairs of the embedded event: dns.error_type,
    dns.critical, dns.type, dns.management_service; those of a plain event
    are dns.type and dns.management_service; each path is the base key, a
    dot and the key of the field. *)
Theorem toContextPaths_order :
  (forall e : errorEvent,
      errorEvent_toContextPaths e
      = [ {| Path := "dns.error_type"; Value := AString (ErrorType e) |};
          {| Path := "dns.critical"; Value := ABool (Critical e) |};
          {| Path := "dns.type"; Value := AString (Event (errorEvent_event e)) |};
          {| Path := "dns.management_service";
             Value := AString (ManagementService (errorEvent_event e)) |} ]
      /\ errorEvent_toContextPaths e
         = ([ {| Path := "dns.error_type"; Value := AString (ErrorType e) |};
              {| Path := "dns.critical"; Value := ABool (Critical e) |} ]
            ++ event_toContextPaths (errorEvent_event e))%list
      /\ map Path (errorEvent_toContextPaths e)
         = map (fun key => debuggerEventBaseKey ++ "." ++ key)
             [ debuggerEventErrorTypeKey; debuggerEventCriticalKey;
               debuggerEventTypeKey; debuggerEventManagementServiceKey ])
  /\ (forall e : event,
      event_toContextPaths e
      = [ {| Path := "dns.type"; Value := AString (Event e) |};
          {| Path := "dns.management_service"; Value := AString (ManagementService e) |} ]
      /\ map Path (event_toContextPaths e)
         = map (fun key => debuggerEventBaseKey ++ "." ++ key)
             [ debuggerEventTypeKey; debuggerEventManagementServiceKey ])
  /\ debuggerEventBaseKey = "dns".
Proof.
  split; [|split]; [intros e; repeat split | intros e; split | ]; reflexivity.
Qed.

(** C9. The [String] method of each enumeration returns the listed display
    name for every declared constant, from a [case] arm of its [switch]: the
    decimal fallback of the [default] arm is reached for none of them, and
    for each enumeration it is reached exactly for the values that are not
    among its constants. *)
Theorem String_display_names :
  (eventType_case resolvConfOverwrittenEventType = Some "resolvconf_overwritten"
   /\ eventType_case dnsConfiguredEventType = Some "dns_configured"
   /\ eventType_case dnsConfigurationErrorEventType = Some "dns_configuration_error"
   /\ dnsManagementService_case systemdResolvedService = Some "systemd-resolved"
   /\ dnsManagementService_case unmanagedService = Some "unmanaged"
   /\ dnsManagementService_case unknownService = Some "unknown"
   /\ errorType_case setFailedErrorType = Some "set_failed"
   /\ errorType_case detectionFailedErrorType = Some "failed_to_detect_management_service")
  /\ (eventType_String resolvConfOverwrittenEventType = "resolvconf_overwritten"
      /\ eventType_String dnsConfiguredEventType = "dns_configured"
      /\ eventType_String dnsConfigurationErrorEventType = "dns_configuration_error"
      /\ dnsManagementService_String systemdResolvedService = "systemd-resolved"
      /\ dnsManagementService_String unmanagedService = "unmanaged"
      /\ dnsManagementService_String unknownService = "unknown"
      /\ errorType_String setFailedErrorType = "set_failed"
      /\ errorType_String detectionFailedErrorType = "failed_to_detect_management_service")
  /\ (forall e, eventType_case e = None <-> ~ In e eventTypes)
  /\ (forall e, dnsManagementService_case e = None <-> ~ In e dnsManagementServices)
  /\ (forall e, errorType_case e = None <-> ~ In e errorTypes).
Proof.
  split; [repeat split | split; [repeat split | ] ].
  repeat split.
  all: intros Hx.
  all: unfold eventType_case, dnsManagementService_case, errorType_case,
         eventTypes, dnsManagementServices, errorTypes in *.
  all: cbn [In] in *.
  all: unfold resolvConfOverwrittenEventType, dnsConfiguredEventType,
         dnsConfigurationErrorEventType, systemdResolvedService, unmanagedService,
         unknownService, setFailedErrorType, detectionFailedErrorType in *.
  all: repeat match goal with
         | H : context [(?a =? ?b)%Z] |- _ => destruct (Z.eqb_spec a b)
         | |- context [(?a =? ?b)%Z] => destruct (Z.eqb_spec a b)
         end.
  all: try discriminate; try reflexivity; try lia.
  all: try (exfalso; apply Hx; lia).
Qed.

(** ** The calls of the reporter *)

Section Calls.

Context {P : Type} `{Publisher P} `{json.Marshaler}.

(** [setManagementService] on a reporter whose mutex is free. *)
Lemma perform_set (s : dnsManagementService) (w : world P) :
  mu (this w) = false ->
  perform (SetManagementService s) w
  = Done tt {| this := {| mu := false;
                          debugPublisher := debugPublisher (this w);
                          managementService := s |};
               trace := trace w ++ [Lock; Unlock] |}.
Proof.
  destruct w as [[m p s0] t]. cbn [this mu]. intros ->.
  cbn. unfold ret, record. cbn [this trace]. now rewrite <- app_assoc.
Qed.

(** An emit call on a reporter whose mutex is free: it locks, builds the
    event from the service it reads, logs, publishes, and unlocks last. *)
Lemma perform_emit (c : call) (w : world P) :
  is_emit c = true -> mu (this w) = false ->
  perform c w
  = Done tt
      {| this := {| mu := false;
                    debugPublisher :=
                      Publish (call_event c (managementService (this w)))
                        (debugPublisher (this w));
                    managementService := managementService (this w) |};
         trace := trace w
                  ++ Lock :: call_failure c (managementService (this w))
                  ++ [ Log (PublishingEvent (call_event c (managementService (this w))));
                       PublishCall (call_event c (managementService (this w)));
                       Unlock ] |}.
Proof.
  destruct w as [[m p s] t]. cbn [this mu managementService debugPublisher trace].
  intros Hc ->.
  destruct c as [s'| | |e critical]; try discriminate Hc;
    cbn [perform emitResolvConfOverwrittenEvent emitDNSConfiguredEvent
         emitDNSConfigurationErrorEvent dnsAnalytics_analytics];
    unfold dnsAnalytics_emitResolvConfOverwrittenEvent,
      dnsAnalytics_emitDNSConfiguredEvent,
      dnsAnalytics_emitDNSConfigurationErrorEvent, defer, bind;
    cbn [mu_Lock this mu record trace debugPublisher managementService
         load_managementService];
    rewrite ?event_toDebuggerEvent_run, ?errorEvent_toDebuggerEvent_run;
    cbn [log_Println debugPublisher_Publish mu_Unlock ret this mu record trace
         debugPublisher managementService];
    unfold call_event, call_failure, ret, record;
    cbn [call_fields call_contextPaths this trace];
    rewrite <- !app_assoc; reflexivity.
Qed.

(** Any call on a reporter whose mutex is free returns and leaves the
    mutex free. *)
Lemma perform_returns (c : call) (w : world P) :
  mu (this w) = false ->
  exists w', perform c w = Done tt w' /\ mu (this w') = false.
Proof.
  intros Hmu. destruct (is_emit c) eqn:Hc.
  - eexists. split; [apply (perform_emit c w Hc Hmu) | reflexivity].
  - destruct c; try discriminate Hc.
    eexists. split; [apply (perform_set _ w Hmu) | reflexivity].
Qed.

End Calls.

(** ** Payloads of the published events *)

Lemma published_app (a b : list action) :
  published (a ++ b) = (published a ++ published b)%list.
Proof.
  induction a as [|x a IH]; [reflexivity|].
  destruct x; simpl; now rewrite IH.
Qed.

Lemma publishes_unlocked_failure `{json.Marshaler} (held : bool) (c : call)
    (s : dnsManagementService) (rest : list action) :
  publishes_unlocked held (call_failure c s ++ rest) = publishes_unlocked held rest.
Proof.
  unfold call_failure, failure_of.
  destruct c; destruct (json.Marshal _); reflexivity.
Qed.

Lemma published_failure `{json.Marshaler} (c : call) (s : dnsManagementService) :
  published (call_failure c s) = [].
Proof.
  unfold call_failure, failure_of.
  destruct c; destruct (json.Marshal _); reflexivity.
Qed.

(** With the standard marshaller an emit call builds the payload of its
    kind, with the display name of the service it read. *)
Lemma call_event_payload (c : call) (s : dnsManagementService) :
  is_emit c = true ->
  JsonData (call_event c s) = payload_of c (dnsManagementService_String s).
Proof.
  destruct c as [s'| | |e critical]; intros Hc; try discriminate Hc;
    cbn [call_event JsonData call_fields]; unfold jsonData_of;
    rewrite ?Marshal_newEvent, ?Marshal_newErrorEvent; reflexivity.
Qed.

Section Sequences.

Context {P : Type} `{Publisher P}.

(** What a caller who makes the calls one after the other gets published:
    every call returns, and the payloads are those of the emit calls, in
    order, each with the service set last before it. *)
Lemma perform_all_payloads (cs : list call) (w : world P) :
  mu (this w) = false ->
  exists w',
    perform_all cs w = Done tt w'
    /\ mu (this w') = false
    /\ exists evs,
        published (trace w') = (published (trace w) ++ evs)%list
        /\ map JsonData evs = payloads_of (managementService (this w)) cs.
Proof.
  revert w. induction cs as [|c cs IH]; intros w Hmu.
  - exists w. split; [reflexivity|]. split; [exact Hmu|].
    exists []. split; [now rewrite app_nil_r | reflexivity].
  - cbn [perform_all]. unfold bind.
    destruct (is_emit c) eqn:Hc.
    + rewrite (perform_emit c w Hc Hmu).
      match goal with |- context [perform_all cs ?w1] =>
        destruct (IH w1 eq_refl) as (w' & Hrun & Hmu' & evs & Hpub & Hjson) end.
      exists w'. split; [exact Hrun|]. split; [exact Hmu'|].
      exists (call_event c (managementService (this w)) :: evs).
      split.
      * rewrite Hpub. cbn [trace this managementService].
        rewrite published_app. cbn [published].
        rewrite published_app, published_failure. cbn [published app].
        now rewrite <- app_assoc.
      * cbn [map]. rewrite (call_event_payload c _ Hc), Hjson.
        cbn [this managementService].
        destruct c; try discriminate Hc; reflexivity.
    + destruct c as [s| | |]; try discriminate Hc.
      rewrite (perform_set s w Hmu).
      match goal with |- context [perform_all cs ?w1] =>
        destruct (IH w1 eq_refl) as (w' & Hrun & Hmu' & evs & Hpub & Hjson) end.
      exists w'. split; [exact Hrun|]. split; [exact Hmu'|].
      exists evs. split.
      * rewrite Hpub. cbn [trace]. rewrite published_app. cbn [published].
        now rewrite app_nil_r.
      * exact Hjson.
Qed.

Lemma payloads_of_emits (s : dnsManagementService) (cs : list call) :
  forallb is_emit cs = true ->
  payloads_of s cs = map (fun c => payload_of c (dnsManagementService_String s)) cs.
Proof.
  induction cs as [|c cs IH]; [reflexivity|].
  cbn [forallb]. intros Hcs. apply andb_prop in Hcs as [Hc Hcs].
  destruct c; try discriminate Hc; cbn [payloads_of map]; now rewrite IH.
Qed.

End Sequences.

(** C3. A fresh reporter holds the unknown service, and every emit call
    made before the first [setManagementService] publishes a payload whose
    management_service is unknown; after [setManagementService s], every
    emit call a single caller makes with no other set in between publishes
    a payload whose management_service is the display name of [s]. *)
Theorem emit_reflects_last_set_service :
  forall (P : Type) (Pub : Publisher P) (publisher : P) (w : world P)
         (s : dnsManagementService) (cs : list call),
    forallb is_emit cs = true ->
    mu (this w) = false ->
    managementService (newDNSAnalytics publisher) = unknownService
    /\ (exists w' evs,
          perform_all cs {| this := newDNSAnalytics publisher; trace := [] |} = Done tt w'
          /\ published (trace w') = evs
          /\ map JsonData evs = map (fun c => payload_of c "unknown") cs)
    /\ (exists w' evs,
          perform_all (SetManagementService s :: cs) w = Done tt w'
          /\ published (trace w') = (published (trace w) ++ evs)%list
          /\ map JsonData evs
             = map (fun c => payload_of c (dnsManagementService_String s)) cs).
Proof.
  intros P Pub publisher w s cs Hcs Hmu. split; [reflexivity|]. split.
  - destruct (perform_all_payloads cs {| this := newDNSAnalytics publisher; trace := [] |} eq_refl)
      as (w' & Hrun & _ & evs & Hpub & Hjson).
    exists w', evs. split; [exact Hrun|]. split; [exact Hpub|].
    rewrite Hjson. apply (payloads_of_emits unknownService cs Hcs).
  - destruct (perform_all_payloads (SetManagementService s :: cs) w Hmu)
      as (w' & Hrun & _ & evs & Hpub & Hjson).
    exists w', evs. split; [exact Hrun|]. split; [exact Hpub|].
    rewrite Hjson. cbn [payloads_of]. apply (payloads_of_emits s cs Hcs).
Qed.

Lemma emit_reflects_last_set_service_witness :
  managementService (newDNSAnalytics (@nil DebuggerEvent)) = unknownService
  /\ (exists w' evs,
        perform_all [EmitDNSConfiguredEvent; EmitResolvConfOverwrittenEvent]
          {| this := newDNSAnalytics (@nil DebuggerEvent); trace := [] |} = Done tt w'
        /\ published (trace w') = evs
        /\ map JsonData evs
           = map (fun c => payload_of c "unknown")
               [EmitDNSConfiguredEvent; EmitResolvConfOverwrittenEvent])
  /\ (exists w' evs,
        perform_all
          (SetManagementService systemdResolvedService
           :: [EmitDNSConfiguredEvent; EmitResolvConfOverwrittenEvent]) fresh
        = Done tt w'
        /\ published (trace w') = (published (trace fresh) ++ evs)%list
        /\ map JsonData evs
           = map (fun c => payload_of c (dnsManagementService_String systemdResolvedService))
               [EmitDNSConfiguredEvent; EmitResolvConfOverwrittenEvent]).
Proof.
  apply (emit_reflects_last_set_service (list DebuggerEvent) MockPublisher [] fresh
           systemdResolvedService [EmitDNSConfiguredEvent; EmitResolvConfOverwrittenEvent]);
    reflexivity.
Defined.

(** ** Failure of the marshaller *)

(** C4. When the marshaller fails on an event or on an error event, the
    conversion logs the failure and returns an event whose payload is the
    empty object and whose context pairs and global paths are the usual
    ones. Whatever the marshaller does, every call of the reporter returns
    normally to a sequential caller; an emit call whose struct the
    marshaller fails on publishes one event, with the empty-object payload. *)
Theorem serialization_failure_is_absorbed :
  forall (Mar : json.Marshaler) (P : Type) (Pub : Publisher P) (w : world P)
         (err : json.error),
    (forall e : event,
        json.Marshal (event_fields e) = inr err ->
        event_toDebuggerEvent e w
        = Done {| JsonData := "{}";
                  KeyBasedContextPaths := event_toContextPaths e;
                  GlobalContextPaths := globalPaths |}
               {| this := this w;
                  trace := trace w ++ [Log (FailedToSerializeEvent err)] |})
    /\ (forall e : errorEvent,
        json.Marshal (errorEvent_fields e) = inr err ->
        errorEvent_toDebuggerEvent e w
        = Done {| JsonData := "{}";
                  KeyBasedContextPaths := errorEvent_toContextPaths e;
                  GlobalContextPaths := globalPaths |}
               {| this := this w;
                  trace := trace w ++ [Log (FailedToSerializeErrorEvent err)] |})
    /\ (forall c : call,
        mu (this w) = false ->
        exists w', perform c w = Done tt w')
    /\ (forall c : call,
        is_emit c = true ->
        mu (this w) = false ->
        json.Marshal (call_fields c (managementService (this w))) = inr err ->
        exists w' debuggerEvent,
          perform c w = Done tt w'
          /\ published (trace w') = (published (trace w) ++ [debuggerEvent])%list
          /\ JsonData debuggerEvent = "{}"
          /\ KeyBasedContextPaths debuggerEvent
             = call_contextPaths c (managementService (this w))
          /\ GlobalContextPaths debuggerEvent = globalPaths).
Proof.
  intros Mar P Pub w err. repeat split.
  - intros e He. rewrite event_toDebuggerEvent_run.
    unfold jsonData_of, failure_of. now rewrite He.
  - intros e He. rewrite errorEvent_toDebuggerEvent_run.
    unfold jsonData_of, failure_of. now rewrite He.
  - intros c Hmu. destruct (perform_returns c w Hmu) as (w' & Hrun & _).
    now exists w'.
  - intros c Hc Hmu He.
    eexists. exists (call_event c (managementService (this w))).
    split; [apply (perform_emit c w Hc Hmu)|].
    split; [|split; [|split]].
    + cbn [trace]. rewrite published_app. cbn [published].
      rewrite published_app, published_failure. reflexivity.
    + cbn [call_event JsonData]. unfold jsonData_of. now rewrite He.
    + reflexivity.
    + reflexivity.
Qed.

Lemma serialization_failure_is_absorbed_witness :
  event_toDebuggerEvent (Mar := failingMarshaler)
    (newEvent dnsConfiguredEventType "" unmanagedService) fresh
  = Done {| JsonData := "{}";
            KeyBasedContextPaths :=
              event_toContextPaths (newEvent dnsConfiguredEventType "" unmanagedService);
            GlobalContextPaths := globalPaths |}
         {| this := this fresh;
            trace := trace fresh
                     ++ [Log (FailedToSerializeEvent "json: unsupported value")] |}
  /\ exists w' debuggerEvent,
      perform (A := dnsAnalytics_analytics (Mar := failingMarshaler))
        (EmitDNSConfigurationErrorEvent setFailedErrorType true) fresh = Done tt w'
      /\ published (trace w') = (published (trace fresh) ++ [debuggerEvent])%list
      /\ JsonData debuggerEvent = "{}"
      /\ KeyBasedContextPaths debuggerEvent
         = call_contextPaths (EmitDNSConfigurationErrorEvent setFailedErrorType true)
             (managementService (this fresh))
      /\ GlobalContextPaths debuggerEvent = globalPaths.
Proof.
  destruct (serialization_failure_is_absorbed failingMarshaler (list DebuggerEvent)
              MockPublisher fresh "json: unsupported value")
    as (Hevent & _ & _ & Hemit).
  split.
  - apply Hevent. reflexivity.
  - apply Hemit; reflexivity.
Defined.

(** ** The mutex *)

(** C10. [setManagementService] changes the field managementService and
    nothing else: on a reporter whose mutex is free it returns with the
    mutex free again, the publisher as it was and the trace extended by the
    lock and the unlock only, so that nothing is published; on a reporter
    whose mutex is held it does not return and changes nothing. *)
Theorem setManagementService_frame :
  forall (P : Type) (s : dnsManagementService) (w : world P),
    dnsAnalytics_setManagementService s w
    = (if mu (this w) then Blocked
       else Done tt {| this := {| mu := mu (this w);
                                  debugPublisher := debugPublisher (this w);
                                  managementService := s |};
                       trace := trace w ++ [Lock; Unlock] |})
    /\ published (trace w ++ [Lock; Unlock]) = published (trace w).
Proof.
  intros P s [[m p s0] t]. cbn [this mu debugPublisher trace]. split.
  - destruct m; [reflexivity|].
    cbn. unfold ret, record. cbn [this trace]. now rewrite <- app_assoc.
  - rewrite published_app. cbn [published]. now rewrite app_nil_r.
Qed.

(** C8, as the code has it. Every emit call takes the mutex first and gives
    it back last, when it returns: the field is read, the event built, the
    line logged and [Publish] called while the mutex is held. *)
Theorem emit_holds_lock_across_publish :
  forall (Mar : json.Marshaler) (P : Type) (Pub : Publisher P) (c : call) (w : world P),
    is_emit c = true ->
    mu (this w) = false ->
    exists w' debuggerEvent,
      perform c w = Done tt w'
      /\ trace w'
         = (trace w
            ++ Lock :: call_failure c (managementService (this w))
            ++ [ Log (PublishingEvent debuggerEvent); PublishCall debuggerEvent; Unlock ])%list
      /\ publishes_unlocked false
           (Lock :: call_failure c (managementService (this w))
            ++ [ Log (PublishingEvent debuggerEvent); PublishCall debuggerEvent; Unlock ])%list
         = false
      /\ mu (this w') = false.
Proof.
  intros Mar P Pub c w Hc Hmu.
  eexists. exists (call_event c (managementService (this w))).
  split; [apply (perform_emit c w Hc Hmu)|].
  split; [reflexivity|]. split; [|reflexivity].
  cbn [publishes_unlocked]. rewrite publishes_unlocked_failure. reflexivity.
Qed.

Lemma emit_holds_lock_across_publish_witness :
  exists w' debuggerEvent,
    perform EmitResolvConfOverwrittenEvent fresh = Done tt w'
    /\ trace w'
       = (trace fresh
          ++ Lock :: call_failure EmitResolvConfOverwrittenEvent (managementService (this fresh))
          ++ [ Log (PublishingEvent debuggerEvent); PublishCall debuggerEvent; Unlock ])%list
    /\ publishes_unlocked false
         (Lock :: call_failure EmitResolvConfOverwrittenEvent (managementService (this fresh))
          ++ [ Log (PublishingEvent debuggerEvent); PublishCall debuggerEvent; Unlock ])%list
       = false
    /\ mu (this w') = false.
Proof.
  apply (emit_holds_lock_across_publish json.std (list DebuggerEvent) MockPublisher
           EmitResolvConfOverwrittenEvent fresh); reflexivity.
Defined.

(** C8, as it is stated, fails: on a fresh reporter
    [emitResolvConfOverwrittenEvent] returns, and its one [Publish] call is
    made between the lock and the unlock. *)
Lemma lock_released_before_publish_counterexample :
  ~ (forall w',
        perform EmitResolvConfOverwrittenEvent fresh = Done tt w' ->
        publishes_unlocked false (trace w') = true)
  /\ option_map (fun w' => map (fun a => match a with
                                        | Lock => "Lock"
                                        | Unlock => "Unlock"
                                        | Log _ => "Log"
                                        | PublishCall _ => "Publish"
                                        end) (trace w'))
       (final (perform EmitResolvConfOverwrittenEvent fresh))
     = Some ["Lock"; "Log"; "Publish"; "Unlock"].
Proof.
  split; [|reflexivity].
  intros Hclaim.
  specialize (Hclaim _ eq_refl). discriminate Hclaim.
Qed.

(** ** The loop of the monitor *)

Section MonitorFacts.

Context {S : Type} {A : analytics S}.
Variable Watcher : Type.
Variable getWatcherFunc : unit -> Watcher + string.
Variable watchIsLive : Watcher -> fsnotify.Event -> bool.

Local Abbreviation monitor := (resolvConfFileWatcherMonitor S Watcher).
Local Abbreviation loop := (monitor_loop getWatcherFunc watchIsLive).

(** Re-arming returns, leaves the analytics object alone and never leaves
    the monitor without a watch. *)
Lemma rearm_run (w : Watcher) (ev : fsnotify.Event) (m : monitor) :
  exists m',
    rearm getWatcherFunc watchIsLive w ev m = Done tt m'
    /\ monitor_analytics m' = monitor_analytics m
    /\ (monitor_watcher m <> None -> monitor_watcher m' <> None)
    /\ exists extra, monitor_log m' = (monitor_log m ++ extra)%list.
Proof.
  unfold rearm.
  destruct (fsnotify.Has ev fsnotify.Remove || fsnotify.Has ev fsnotify.Rename)%bool;
    [destruct (watchIsLive w ev); [|destruct (getWatcherFunc tt) as [w'|err]]|];
    eexists; (split; [reflexivity|]); (split; [reflexivity|]); split;
    try (intros Hw; exact Hw); try (cbn; discriminate);
    try (exists []; cbn; now rewrite app_nil_r).
  exists [RearmFailed err]. reflexivity.
Qed.

(** One notification: the emit call of the analytics object is made once,
    on the state the object was in, and the monitor keeps a watch. *)
Lemma monitor_step_notification (w : Watcher) (ev : fsnotify.Event)
    (m : monitor) (s' : S) :
  monitor_watcher m <> None ->
  emitResolvConfOverwrittenEvent (monitor_analytics m) = Done tt s' ->
  exists m',
    monitor_step getWatcherFunc watchIsLive w (Notification ev) m = Done tt m'
    /\ monitor_analytics m' = s'
    /\ monitor_watcher m' <> None
    /\ exists extra, monitor_log m' = (monitor_log m ++ extra)%list.
Proof.
  intros Hw Hemit. cbn [monitor_step]. unfold bind, on_analytics. rewrite Hemit.
  match goal with |- context [rearm _ _ w ev ?m1] =>
    destruct (rearm_run w ev m1) as (m' & Hrun & Han & Hkeep & Hlog) end.
  exists m'. split; [exact Hrun|]. split; [exact Han|].
  split; [apply Hkeep; exact Hw | exact Hlog].
Qed.

(** Errors of the watcher: each is logged, and the loop goes on with the
    same watch and an untouched analytics object. *)
Lemma monitor_loop_errors (errs : list string) (m : monitor) :
  monitor_watcher m <> None ->
  loop (map WatcherError errs) m
  = Done tt {| monitor_analytics := monitor_analytics m;
               monitor_watcher := monitor_watcher m;
               monitor_log := monitor_log m ++ map WatcherErrorReported errs |}.
Proof.
  revert m. induction errs as [|err errs IH]; intros m Hw.
  - cbn. unfold ret. rewrite app_nil_r. destruct m; reflexivity.
  - cbn [map monitor_loop]. destruct (monitor_watcher m) as [w|] eqn:Ew; [|contradiction].
    unfold bind. cbn [monitor_step monitor_Println].
    rewrite IH; cbn [monitor_watcher monitor_analytics monitor_log].
    + rewrite Ew, <- app_assoc. reflexivity.
    + rewrite Ew. discriminate.
Qed.

Lemma monitor_loop_stopped (inputs : list input) (m : monitor) :
  monitor_watcher m = None -> loop inputs m = Done tt m.
Proof. intros Hw. destruct inputs; cbn; [reflexivity | now rewrite Hw]. Qed.

Lemma monitor_loop_app (xs ys : list input) (m : monitor) :
  loop (xs ++ ys) m = (loop xs ;; loop ys)%prog m.
Proof.
  revert m. induction xs as [|x xs IH]; intros m; [reflexivity|].
  cbn [app monitor_loop]. unfold bind.
  destruct (monitor_watcher m) as [w|] eqn:Ew.
  - destruct (monitor_step getWatcherFunc watchIsLive w x m) as [[] m1| |msg];
      [rewrite IH; reflexivity | reflexivity | reflexivity].
  - symmetry. now apply monitor_loop_stopped.
Qed.

(** After any errors of the watcher, a notification still makes the emit
    call, once, on the state the analytics object was in. *)
Lemma monitor_loop_errors_then_notification (errs : list string)
    (ev : fsnotify.Event) (m : monitor) (s' : S) :
  monitor_watcher m <> None ->
  emitResolvConfOverwrittenEvent (monitor_analytics m) = Done tt s' ->
  exists m',
    loop (map WatcherError errs ++ [Notification ev]) m = Done tt m'
    /\ monitor_analytics m' = s'
    /\ monitor_watcher m' <> None
    /\ exists extra,
        monitor_log m' = (monitor_log m ++ map WatcherErrorReported errs ++ extra)%list.
Proof.
  intros Hw Hemit. rewrite monitor_loop_app. unfold bind at 1.
  rewrite (monitor_loop_errors errs m Hw).
  cbn [monitor_loop]. cbn [monitor_watcher].
  destruct (monitor_watcher m) as [w|] eqn:Ew; [|contradiction].
  unfold bind.
  match goal with |- context [monitor_step _ _ w (Notification ev) ?m1] =>
    destruct (monitor_step_notification w ev m1 s')
      as (m' & Hrun & Han & Hkeep & extra & Hlog) end.
  - cbn [monitor_watcher]. discriminate.
  - exact Hemit.
  - rewrite Hrun. exists m'. split; [reflexivity|]. split; [exact Han|].
    split; [exact Hkeep|]. exists extra.
    rewrite Hlog. cbn [monitor_log]. now rewrite <- app_assoc.
Qed.

(** [Start] with a watcher function that succeeds. *)
Lemma Start_run (w : Watcher) (m : monitor) :
  getWatcherFunc tt = inl w ->
  Start getWatcherFunc m
  = Done tt {| monitor_analytics := monitor_analytics m;
               monitor_watcher := Some w;
               monitor_log := monitor_log m |}.
Proof. intros Hw. unfold Start. now rewrite Hw. Qed.

End MonitorFacts.

(** C6. Once [Start] has set up the watch, one notification delivered to
    the loop, of whatever kind, makes the reporter's
    [emitResolvConfOverwrittenEvent] run exactly once: the reporter ends in
    the state one call of it leaves, and exactly one event more has been
    published, the overwrite event of the current service. *)
Theorem one_notification_one_emission :
  forall (P : Type) (Pub : Publisher P) (Watcher : Type)
         (getWatcherFunc : unit -> Watcher + string)
         (watchIsLive : Watcher -> fsnotify.Event -> bool)
         (m : resolvConfFileWatcherMonitor (world P) Watcher)
         (w0 : Watcher) (ev : fsnotify.Event),
    getWatcherFunc tt = inl w0 ->
    mu (this (monitor_analytics m)) = false ->
    exists m' debuggerEvent,
      (Start getWatcherFunc ;;
       monitor_loop getWatcherFunc watchIsLive [Notification ev])%prog m = Done tt m'
      /\ perform EmitResolvConfOverwrittenEvent (monitor_analytics m)
         = Done tt (monitor_analytics m')
      /\ published (trace (monitor_analytics m'))
         = (published (trace (monitor_analytics m)) ++ [debuggerEvent])%list
      /\ JsonData debuggerEvent
         = plain_payload "resolvconf_overwritten"
             (dnsManagementService_String (managementService (this (monitor_analytics m)))).
Proof.
  intros P Pub Watcher getWatcherFunc watchIsLive m w0 ev Hget Hmu.
  unfold bind. rewrite (Start_run _ _ w0 m Hget).
  pose proof (perform_emit EmitResolvConfOverwrittenEvent (monitor_analytics m) eq_refl Hmu)
    as Hemit.
  match goal with |- context [monitor_loop _ _ _ ?m1] =>
    destruct (monitor_loop_errors_then_notification Watcher getWatcherFunc watchIsLive
                [] ev m1 _ ltac:(cbn; discriminate) Hemit)
      as (m' & Hrun & Han & _) end.
  cbn [map app] in Hrun.
  exists m', (call_event EmitResolvConfOverwrittenEvent
                (managementService (this (monitor_analytics m)))).
  split; [exact Hrun|]. rewrite Han. split; [exact Hemit|]. split.
  - cbn [trace]. rewrite published_app. cbn [published].
    rewrite published_app, published_failure. reflexivity.
  - apply (call_event_payload EmitResolvConfOverwrittenEvent _ eq_refl).
Qed.

Lemma one_notification_one_emission_witness :
  exists m' debuggerEvent,
    (Start getMockWatcherFunc ;;
     monitor_loop getMockWatcherFunc (fun _ _ => true)
       [Notification {| fsnotify.Name := ""; fsnotify.Op := 0 |}])%prog
      {| monitor_analytics := fresh; monitor_watcher := None; monitor_log := [] |}
    = Done tt m'
    /\ perform EmitResolvConfOverwrittenEvent fresh = Done tt (monitor_analytics m')
    /\ published (trace (monitor_analytics m'))
       = (published (trace fresh) ++ [debuggerEvent])%list
    /\ JsonData debuggerEvent
       = plain_payload "resolvconf_overwritten"
           (dnsManagementService_String (managementService (this fresh))).
Proof.
  apply (one_notification_one_emission (list DebuggerEvent) MockPublisher unit
           getMockWatcherFunc (fun _ _ => true)
           {| monitor_analytics := fresh; monitor_watcher := None; monitor_log := [] |}
           tt {| fsnotify.Name := ""; fsnotify.Op := 0 |});
    reflexivity.
Defined.

(** C7. Errors of the watcher do not end the loop: after [Start] and any
    sequence of them, each logged, the next notification still makes the
    reporter emit the overwrite event, once, and the monitor keeps its
    watch. *)
Theorem watcher_errors_do_not_stop_loop :
  forall (P : Type) (Pub : Publisher P) (Watcher : Type)
         (getWatcherFunc : unit -> Watcher + string)
         (watchIsLive : Watcher -> fsnotify.Event -> bool)
         (m : resolvConfFileWatcherMonitor (world P) Watcher)
         (w0 : Watcher) (errs : list string) (ev : fsnotify.Event),
    getWatcherFunc tt = inl w0 ->
    mu (this (monitor_analytics m)) = false ->
    exists m' debuggerEvent extra,
      (Start getWatcherFunc ;;
       monitor_loop getWatcherFunc watchIsLive
         (map WatcherError errs ++ [Notification ev]))%prog m = Done tt m'
      /\ perform EmitResolvConfOverwrittenEvent (monitor_analytics m)
         = Done tt (monitor_analytics m')
      /\ published (trace (monitor_analytics m'))
         = (published (trace (monitor_analytics m)) ++ [debuggerEvent])%list
      /\ JsonData debuggerEvent
         = plain_payload "resolvconf_overwritten"
             (dnsManagementService_String (managementService (this (monitor_analytics m))))
      /\ monitor_log m'
         = (monitor_log m ++ map WatcherErrorReported errs ++ extra)%list
      /\ monitor_watcher m' <> None.
Proof.
  intros P Pub Watcher getWatcherFunc watchIsLive m w0 errs ev Hget Hmu.
  unfold bind. rewrite (Start_run _ _ w0 m Hget).
  pose proof (perform_emit EmitResolvConfOverwrittenEvent (monitor_analytics m) eq_refl Hmu)
    as Hemit.
  match goal with |- context [monitor_loop _ _ _ ?m1] =>
    destruct (monitor_loop_errors_then_notification Watcher getWatcherFunc watchIsLive
                errs ev m1 _ ltac:(cbn; discriminate) Hemit)
      as (m' & Hrun & Han & Hkeep & extra & Hlog) end.
  exists m', (call_event EmitResolvConfOverwrittenEvent
                (managementService (this (monitor_analytics m)))), extra.
  split; [exact Hrun|]. rewrite Han. split; [exact Hemit|]. split; [|split; [|split]].
  - cbn [trace]. rewrite published_app. cbn [published].
    rewrite published_app, published_failure. reflexivity.
  - apply (call_event_payload EmitResolvConfOverwrittenEvent _ eq_refl).
  - exact Hlog.
  - exact Hkeep.
Qed.

Lemma watcher_errors_do_not_stop_loop_witness :
  exists m' debuggerEvent extra,
    (Start getMockWatcherFunc ;;
     monitor_loop getMockWatcherFunc (fun _ _ => false)
       (map WatcherError ["queue overflow"; "too many open files"]
        ++ [Notification {| fsnotify.Name := "/etc/resolv.conf";
                            fsnotify.Op := fsnotify.Rename |}]))%prog
      {| monitor_analytics := fresh; monitor_watcher := None; monitor_log := [] |}
    = Done tt m'
    /\ perform EmitResolvConfOverwrittenEvent fresh = Done tt (monitor_analytics m')
    /\ published (trace (monitor_analytics m'))
       = (published (trace fresh) ++ [debuggerEvent])%list
    /\ JsonData debuggerEvent
       = plain_payload "resolvconf_overwritten"
           (dnsManagementService_String (managementService (this fresh)))
    /\ @monitor_log _ unit m'
       = ([] ++ map WatcherErrorReported ["queue overflow"; "too many open files"]
          ++ extra)%list
    /\ monitor_watcher m' <> None.
Proof.
  apply (watcher_errors_do_not_stop_loop (list DebuggerEvent) MockPublisher unit
           getMockWatcherFunc (fun _ _ => false)
           {| monitor_analytics := fresh; monitor_watcher := None; monitor_log := [] |}
           tt ["queue overflow"; "too many open files"]
           {| fsnotify.Name := "/etc/resolv.conf"; fsnotify.Op := fsnotify.Rename |});
    reflexivity.
Defined.

(** ** The tests of the package, replayed *)

(** [Test_emitResolvConfOverwrittenEvent]: one event on the mock publisher,
    with the context pairs of the type and of the unknown service. *)
Example Test_emitResolvConfOverwrittenEvent :
  option_map (fun w => debugPublisher (this w))
    (final (perform EmitResolvConfOverwrittenEvent fresh))
  = Some [ {| JsonData :=
                json_lit "{'event':'resolvconf_overwritten','namespace':'nordvpn-linux','management_service':'unknown'}";
              KeyBasedContextPaths :=
                [ {| Path := "dns.type"; Value := AString "resolvconf_overwritten" |};
                  {| Path := "dns.management_service"; Value := AString "unknown" |} ];
              GlobalContextPaths := globalPaths |} ].
Proof. reflexivity. Qed.

(** [Test_emitDNSConfiguredEvent], case systemd-resolved. *)
Example Test_emitDNSConfiguredEvent :
  option_map (fun w => map JsonData (debugPublisher (this w)))
    (final (perform_all [SetManagementService systemdResolvedService;
                         EmitDNSConfiguredEvent] fresh))
  = Some [ json_lit "{'event':'dns_configured','namespace':'nordvpn-linux','management_service':'systemd-resolved'}" ].
Proof. reflexivity. Qed.

(** [Test_emidDNSConfigurationErrorEvent], case set failed for unmanaged,
    critical. *)
Example Test_emitDNSConfigurationErrorEvent :
  option_map (fun w => debugPublisher (this w))
    (final (perform_all [SetManagementService unmanagedService;
                         EmitDNSConfigurationErrorEvent setFailedErrorType true] fresh))
  = Some [ {| JsonData :=
                json_lit "{'event':'dns_configuration_error','namespace':'nordvpn-linux','management_service':'unmanaged','error_type':'set_failed','cricital':true}";
              KeyBasedContextPaths :=
                [ {| Path := "dns.error_type"; Value := AString "set_failed" |};
                  {| Path := "dns.critical"; Value := ABool true |};
                  {| Path := "dns.type"; Value := AString "dns_configuration_error" |};
                  {| Path := "dns.management_service"; Value := AString "unmanaged" |} ];
              GlobalContextPaths := globalPaths |} ].
Proof. reflexivity. Qed.

(** [Test_ResolvConfMonitoring]: the mock of the analytics, the watcher
    function that succeeds, [Start], and the zero value of the notification
    sent on the stream; the mock has seen the overwrite event. *)
Example Test_ResolvConfMonitoring :
  option_map (fun m => resolvConfEventEmitted (monitor_analytics m))
    (final ((Start getMockWatcherFunc ;;
             monitor_loop getMockWatcherFunc (fun _ _ => true)
               [Notification {| fsnotify.Name := ""; fsnotify.Op := 0 |}])%prog
              {| monitor_analytics := newAnalyticsMock;
                 monitor_watcher := None;
                 monitor_log := [] |}))
  = Some true.
Proof. reflexivity. Qed.

(** A value outside the constants is rendered in decimal, and the payload
    carries it as it is. *)
Example undeclared_service_payload :
  option_map (fun w => map JsonData (debugPublisher (this w)))
    (final (perform_all [SetManagementService (-7)%Z; EmitDNSConfiguredEvent] fresh))
  = Some [ json_lit "{'event':'dns_configured','namespace':'nordvpn-linux','management_service':'-7'}" ].
Proof. reflexivity. Qed.

(** What the encoder does with bytes it does not copy: the less-than sign,
    the line feed, a stray continuation byte and the backslash. *)
Example appendString_escapes :
  json.appendString ("a<b" ++ String (ascii_of_nat 10) (String (ascii_of_nat 128) "\"))
  = json_lit ("'a\" ++ "u003cb\n") ++ json.replacement ++ json_lit "\\'".
Proof. reflexivity. Qed.

(* ================================================================= *)
(** * Further properties of the event model and of the reporter *)

(** ** Display names *)

Lemma to_int_proper (e : Z) :
  Z.to_int e <> Decimal.Pos Decimal.Nil /\ Z.to_int e <> Decimal.Neg Decimal.Nil.
Proof.
  destruct e as [|p|p]; cbn; split; try discriminate;
    intros [= Hp]; exact (DecimalPos.Unsigned.to_uint_nonnil p Hp).
Qed.

(** The decimal rendering reads back as the number it renders. *)
Lemma Sprintf_d_parses (e : Z) :
  NilZero.int_of_string (Sprintf_d e) = Some (Z.to_int e).
Proof.
  unfold Sprintf_d. destruct (to_int_proper e) as [Hpos Hneg].
  now apply NilZero.isi.
Qed.

Lemma Sprintf_d_inj (e e' : Z) : Sprintf_d e = Sprintf_d e' -> e = e'.
Proof.
  intros Heq. apply (f_equal NilZero.int_of_string) in Heq.
  rewrite !Sprintf_d_parses in Heq. injection Heq as Heq.
  now apply DecimalZ.to_int_inj.
Qed.

(** Settles an equation between two display strings, each a name of the
    table or a decimal rendering. *)
Ltac display_names_equal H :=
  first
    [ discriminate H
    | apply Sprintf_d_inj in H; exact H
    | apply (f_equal NilZero.int_of_string) in H;
      rewrite ?Sprintf_d_parses in H; discriminate H
    | lia ].

Ltac String_inj :=
  intros e e';
  unfold eventType_String, eventType_case, dnsManagementService_String,
    dnsManagementService_case, errorType_String, errorType_case,
    resolvConfOverwrittenEventType, dnsConfiguredEventType,
    dnsConfigurationErrorEventType, systemdResolvedService, unmanagedService,
    unknownService, setFailedErrorType, detectionFailedErrorType;
  repeat match goal with
    | |- context [(?a =? ?b)%Z] => destruct (Z.eqb_spec a b)
    end;
  let Heq := fresh "Heq" in
  intros Heq; subst; display_names_equal Heq.

Lemma eventType_String_inj :
  forall e e' : eventType, eventType_String e = eventType_String e' -> e = e'.
Proof. String_inj. Qed.

Lemma dnsManagementService_String_inj :
  forall e e' : dnsManagementService,
    dnsManagementService_String e = dnsManagementService_String e' -> e = e'.
Proof. String_inj. Qed.

Lemma errorType_String_inj :
  forall e e' : errorType, errorType_String e = errorType_String e' -> e = e'.
Proof. String_inj. Qed.

(** X1. Each [String] method gives different strings for different values,
    declared or not: a display name or a decimal names one value only. *)
Theorem String_injective :
  (forall e e' : eventType, eventType_String e = eventType_String e' -> e = e')
  /\ (forall e e' : dnsManagementService,
         dnsManagementService_String e = dnsManagementService_String e' -> e = e')
  /\ (forall e e' : errorType, errorType_String e = errorType_String e' -> e = e').
Proof.
  split; [exact eventType_String_inj|].
  split; [exact dnsManagementService_String_inj | exact errorType_String_inj].
Qed.

Lemma String_injective_witness :
  dnsManagementService_String unknownService = dnsManagementService_String 2%Z
  /\ unknownService = 2%Z.
Proof.
  split; [reflexivity|].
  destruct String_injective as (_ & Hservice & _).
  apply Hservice. reflexivity.
Defined.

Lemma Sprintf_d_name_chars (e : Z) :
  all_chars name_char (Sprintf_d e) = true /\ Sprintf_d e <> "".
Proof.
  assert (Hu : forall d, all_chars name_char (NilEmpty.string_of_uint d) = true)
    by (induction d; simpl; try reflexivity; exact IHd).
  assert (Hz : forall d, all_chars name_char (NilZero.string_of_uint d) = true
                         /\ NilZero.string_of_uint d <> "")
    by (intros d; destruct d; split; try discriminate; try reflexivity;
        apply (Hu (_ d))).
  unfold Sprintf_d, NilZero.string_of_int.
  destruct (Z.to_int e) as [d|d]; [apply Hz|].
  split; [|discriminate]. cbn [all_chars]. now destruct (Hz d) as [-> _].
Qed.

(** X2. Whatever the value, a display string is not empty and is made of
    lowercase letters, digits, hyphens and underscores only. *)
Theorem String_name_chars :
  (forall e : eventType,
      all_chars name_char (eventType_String e) = true /\ eventType_String e <> "")
  /\ (forall e : dnsManagementService,
         all_chars name_char (dnsManagementService_String e) = true
         /\ dnsManagementService_String e <> "")
  /\ (forall e : errorType,
         all_chars name_char (errorType_String e) = true /\ errorType_String e <> "").
Proof.
  repeat split; revert e;
    unfold eventType_String, eventType_case, dnsManagementService_String,
      dnsManagementService_case, errorType_String, errorType_case; intros e;
    repeat match goal with
      | |- context [if ?c then _ else _] => destruct c
      end;
    try reflexivity; try discriminate; apply Sprintf_d_name_chars.
Qed.

(** ** Context pairs *)

(** X10. The paths of the context pairs of an event, plain or error, are
    pairwise different: no key is given twice. *)
Theorem toContextPaths_NoDup :
  (forall e : event, NoDup (map Path (event_toContextPaths e)))
  /\ (forall e : errorEvent, NoDup (map Path (errorEvent_toContextPaths e))).
Proof.
  split; intros e; cbn;
    repeat (constructor; [cbn; intuition discriminate|]); constructor.
Qed.

(** ** What a payload tells *)

Lemma append_cancel_l (p a b : string) : p ++ a = p ++ b -> a = b.
Proof. induction p as [|x p IH]; cbn; [trivial | intros [= Heq]; auto]. Qed.

(** Two strings without a double quote, each followed by one: the strings
    are the same, and so is what follows. *)
Lemma plain_until_dquote (x x' r r' : string) :
  plain x = true -> plain x' = true ->
  x ++ String dquote r = x' ++ String dquote r' -> x = x' /\ r = r'.
Proof.
  revert x'. induction x as [|a x IH]; intros [|a' x'] Hx Hx' Heq; cbn in *.
  - injection Heq as Heq. now split.
  - injection Heq as Ha _. subst a'. discriminate Hx'.
  - injection Heq as Ha _. subst a. discriminate Hx.
  - injection Heq as Ha Heq. subst a'.
    apply andb_prop in Hx as [_ Hx]. apply andb_prop in Hx' as [_ Hx'].
    destruct (IH x' Hx Hx' Heq) as [-> ->]. now split.
Qed.

Lemma plain_payload_shape (eventName serviceName : string) :
  plain_payload eventName serviceName
  = json_lit "{'event':'"
    ++ eventName
    ++ String dquote
         (json_lit ",'namespace':'nordvpn-linux','management_service':'"
          ++ serviceName ++ String dquote "}").
Proof. reflexivity. Qed.

Lemma error_payload_shape (serviceName errorName : string) (critical : bool) :
  error_payload serviceName errorName critical
  = json_lit "{'event':'dns_configuration_error','namespace':'nordvpn-linux','management_service':'"
    ++ serviceName
    ++ String dquote
         (json_lit ",'error_type':'"
          ++ errorName
          ++ String dquote
               (json_lit ",'cricital':" ++ (if critical then "true" else "false") ++ "}")).
Proof. reflexivity. Qed.

Lemma plain_payload_inj (eventName serviceName serviceName' : string) :
  plain eventName = true -> plain serviceName = true -> plain serviceName' = true ->
  plain_payload eventName serviceName = plain_payload eventName serviceName' ->
  serviceName = serviceName'.
Proof.
  intros He Hs Hs' Heq. rewrite !plain_payload_shape in Heq.
  apply append_cancel_l in Heq.
  apply (plain_until_dquote _ _ _ _ He He) in Heq as [_ Heq].
  apply append_cancel_l in Heq.
  now apply (plain_until_dquote _ _ _ _ Hs Hs') in Heq as [Heq _].
Qed.

Lemma error_payload_inj (s s' e e' : string) (c c' : bool) :
  plain s = true -> plain s' = true -> plain e = true -> plain e' = true ->
  error_payload s e c = error_payload s' e' c' ->
  s = s' /\ e = e' /\ c = c'.
Proof.
  intros Hs Hs' He He' Heq. rewrite !error_payload_shape in Heq.
  apply append_cancel_l in Heq.
  apply (plain_until_dquote _ _ _ _ Hs Hs') in Heq as [-> Heq].
  apply append_cancel_l in Heq.
  apply (plain_until_dquote _ _ _ _ He He') in Heq as [-> Heq].
  split; [reflexivity|]. split; [reflexivity|].
  destruct c, c'; try reflexivity; discriminate Heq.
Qed.

(** X3. The payload of an emit call tells which call it was and on which
    management service: two emit calls with the same payload are the same
    call, with the same error type and criticality if they report an error,
    made on the same service. *)
Theorem payload_determines_call :
  forall (c c' : call) (s s' : dnsManagementService),
    is_emit c = true -> is_emit c' = true ->
    JsonData (call_event c s) = JsonData (call_event c' s') ->
    c = c' /\ s = s'.
Proof.
  intros c c' s s' Hc Hc' Heq.
  rewrite (call_event_payload c s Hc), (call_event_payload c' s' Hc') in Heq.
  pose proof dnsManagementService_String_inj as Hservice.
  pose proof errorType_String_inj as Herror.
  pose proof (dnsManagementService_String_plain s) as Hs.
  pose proof (dnsManagementService_String_plain s') as Hs'.
  destruct c as [x| | |e critical]; try discriminate Hc;
    destruct c' as [x'| | |e' critical']; try discriminate Hc';
    cbn [payload_of] in Heq;
    try (exfalso; unfold plain_payload, error_payload in Heq;
         cbn [json_lit Ascii.eqb Bool.eqb append] in Heq; discriminate Heq).
  - apply plain_payload_inj in Heq; auto.
  - apply plain_payload_inj in Heq; auto.
  - apply error_payload_inj in Heq as (Hsv & He & ->);
      auto using errorType_String_plain.
    apply Hservice in Hsv. apply Herror in He. now subst.
Qed.

Lemma payload_determines_call_witness :
  JsonData (call_event EmitDNSConfiguredEvent unmanagedService)
  = JsonData (call_event EmitDNSConfiguredEvent 1%Z)
  /\ EmitDNSConfiguredEvent = EmitDNSConfiguredEvent /\ unmanagedService = 1%Z.
Proof.
  split; [reflexivity|].
  apply (payload_determines_call EmitDNSConfiguredEvent EmitDNSConfiguredEvent
           unmanagedService 1%Z); reflexivity.
Defined.

(** ** Sequences of calls on the reporter *)

Section Runs.

Context {Mar : json.Marshaler} {P : Type} {Pub : Publisher P}.

(** The whole effect of a sequence of calls by a single caller on a
    reporter whose mutex is free. *)
Lemma perform_all_run (cs : list call) (w : world P) :
  mu (this w) = false ->
  perform_all cs w
  = Done tt
      {| this :=
           {| mu := false;
              debugPublisher :=
                fold_left (fun p e => Publish e p)
                  (events_of (managementService (this w)) cs)
                  (debugPublisher (this w));
              managementService := service_after (managementService (this w)) cs |};
         trace := trace w ++ trace_of (managementService (this w)) cs |}.
Proof.
  revert w. induction cs as [|c cs IH]; intros [[m p s] t]; cbn [this mu]; intros ->.
  - cbn. unfold ret. now rewrite app_nil_r.
  - cbn [perform_all]. unfold bind.
    destruct (is_emit c) eqn:Hc.
    + rewrite (perform_emit c {| this := {| mu := false; debugPublisher := p;
                                             managementService := s |};
                                 trace := t |} Hc eq_refl).
      rewrite IH by reflexivity.
      cbn [this trace mu debugPublisher managementService].
      destruct c; try discriminate Hc;
        cbn [events_of fold_left trace_of service_after call_trace];
        rewrite <- !app_assoc; reflexivity.
    + destruct c as [s'| | |]; try discriminate Hc.
      rewrite (perform_set s' {| this := {| mu := false; debugPublisher := p;
                                            managementService := s |};
                                trace := t |} eq_refl).
      rewrite IH by reflexivity.
      cbn [this trace mu debugPublisher managementService
           events_of fold_left trace_of service_after call_trace].
      rewrite <- !app_assoc. reflexivity.
Qed.

Lemma published_trace_of (s : dnsManagementService) (cs : list call) :
  published (trace_of s cs) = events_of s cs.
Proof.
  revert s. induction cs as [|c cs IH]; intros s; [reflexivity|].
  cbn [trace_of]. rewrite published_app, IH.
  destruct c; cbn [call_trace published service_after events_of app];
    try reflexivity;
    rewrite published_app, published_failure; reflexivity.
Qed.

Lemma lock_discipline_failure (held : bool) (c : call) (s : dnsManagementService)
    (rest : list action) :
  lock_discipline held (call_failure c s ++ rest) = lock_discipline held rest.
Proof.
  unfold call_failure, failure_of.
  destruct c; destruct (json.Marshal _); reflexivity.
Qed.

Lemma lock_discipline_trace_of (s : dnsManagementService) (cs : list call) :
  lock_discipline false (trace_of s cs) = Some false.
Proof.
  revert s. induction cs as [|c cs IH]; intros s; [reflexivity|].
  cbn [trace_of].
  destruct c; cbn [call_trace app lock_discipline]; try apply IH;
    rewrite <- app_assoc, lock_discipline_failure; cbn [app lock_discipline];
    apply IH.
Qed.

Lemma events_of_length (s : dnsManagementService) (cs : list call) :
  List.length (events_of s cs) = List.length (filter is_emit cs).
Proof.
  revert s. induction cs as [|c cs IH]; intros s; [reflexivity|].
  destruct c; cbn [events_of filter is_emit List.length]; now rewrite IH.
Qed.

End Runs.

(** X6. Calls made one after the other on a reporter whose mutex is free
    all return and leave the mutex free; the reporter then holds the service
    of the last [setManagementService] (or the one it held, if there was
    none), and the publisher has been given one event for each emit call and
    none for a set, in the order of the calls, each built from the service
    held when its call was made. This holds whatever the marshaller does. *)
Theorem perform_all_state :
  forall (Mar : json.Marshaler) (P : Type) (Pub : Publisher P)
         (cs : list call) (w : world P),
    mu (this w) = false ->
    exists w',
      perform_all cs w = Done tt w'
      /\ mu (this w') = false
      /\ managementService (this w') = service_after (managementService (this w)) cs
      /\ published (trace w')
         = (published (trace w) ++ events_of (managementService (this w)) cs)%list
      /\ debugPublisher (this w')
         = fold_left (fun p e => Publish e p)
             (events_of (managementService (this w)) cs) (debugPublisher (this w))
      /\ List.length (events_of (managementService (this w)) cs)
         = List.length (filter is_emit cs).
Proof.
  intros Mar P Pub cs w Hmu.
  eexists. split; [apply (perform_all_run cs w Hmu)|].
  cbn [this mu managementService debugPublisher trace].
  repeat split.
  - now rewrite published_app, published_trace_of.
  - apply events_of_length.
Qed.

Lemma perform_all_state_witness :
  exists w',
    perform_all
      [EmitDNSConfiguredEvent; SetManagementService unmanagedService;
       EmitDNSConfigurationErrorEvent detectionFailedErrorType true] fresh
    = Done tt w'
    /\ mu (this w') = false
    /\ managementService (this w') = unmanagedService
    /\ published (trace w')
       = [ call_event EmitDNSConfiguredEvent unknownService;
           call_event (EmitDNSConfigurationErrorEvent detectionFailedErrorType true)
             unmanagedService ]
    /\ debugPublisher (this w')
       = [ call_event (EmitDNSConfigurationErrorEvent detectionFailedErrorType true)
             unmanagedService;
           call_event EmitDNSConfiguredEvent unknownService ]
    /\ List.length
         (events_of unknownService
            [EmitDNSConfiguredEvent; SetManagementService unmanagedService;
             EmitDNSConfigurationErrorEvent detectionFailedErrorType true])
       = 2.
Proof.
  apply (perform_all_state json.std (list DebuggerEvent) MockPublisher
           [EmitDNSConfiguredEvent; SetManagementService unmanagedService;
            EmitDNSConfigurationErrorEvent detectionFailedErrorType true] fresh).
  reflexivity.
Defined.

(** X7. Whatever calls a single caller makes on a new reporter, and whatever
    the marshaller does, the trace keeps the discipline of the mutex: a lock
    is taken only when the mutex is free, an unlock follows each lock,
    [Publish] is called only while the mutex is held, and the mutex is free
    when the calls are over. *)
Theorem new_reporter_lock_discipline :
  forall (Mar : json.Marshaler) (P : Type) (Pub : Publisher P)
         (publisher : P) (cs : list call),
    exists w',
      perform_all cs {| this := newDNSAnalytics publisher; trace := [] |} = Done tt w'
      /\ lock_discipline false (trace w') = Some false
      /\ mu (this w') = false.
Proof.
  intros Mar P Pub publisher cs.
  eexists. split; [apply perform_all_run; reflexivity|].
  cbn [trace this mu app]. split; [apply lock_discipline_trace_of | reflexivity].
Qed.

(** ** What the tests assert, for every value *)

(** X4. For every management service, declared or not, and every stack of
    the mock publisher: after [setManagementService], each of the two plain
    emit calls on a new reporter puts exactly one event on top of the stack,
    whose payload and context pairs carry the display name of that service
    and the name of the event, and whose global paths are the fixed four. *)
Theorem plain_emit_on_stack :
  forall (s : dnsManagementService) (stack : list DebuggerEvent),
    (exists w',
        perform_all [SetManagementService s; EmitResolvConfOverwrittenEvent]
          {| this := newDNSAnalytics stack; trace := [] |} = Done tt w'
        /\ debugPublisher (this w')
           = {| JsonData :=
                  plain_payload "resolvconf_overwritten" (dnsManagementService_String s);
                KeyBasedContextPaths :=
                  [ {| Path := "dns.type"; Value := AString "resolvconf_overwritten" |};
                    {| Path := "dns.management_service";
                       Value := AString (dnsManagementService_String s) |} ];
                GlobalContextPaths := globalPaths |} :: stack)
    /\ (exists w',
        perform_all [SetManagementService s; EmitDNSConfiguredEvent]
          {| this := newDNSAnalytics stack; trace := [] |} = Done tt w'
        /\ debugPublisher (this w')
           = {| JsonData :=
                  plain_payload "dns_configured" (dnsManagementService_String s);
                KeyBasedContextPaths :=
                  [ {| Path := "dns.type"; Value := AString "dns_configured" |};
                    {| Path := "dns.management_service";
                       Value := AString (dnsManagementService_String s) |} ];
                GlobalContextPaths := globalPaths |} :: stack).
Proof.
  intros s stack.
  split; (eexists; split; [apply perform_all_run; reflexivity|]);
    cbn [this debugPublisher managementService newDNSAnalytics events_of fold_left
         Publish MockPublisher];
    f_equal; unfold call_event; f_equal;
    cbn [call_fields]; unfold jsonData_of; rewrite Marshal_newEvent; reflexivity.
Qed.

(** X5. For every management service, error type and criticality, declared
    or not: after [setManagementService], [emitDNSConfigurationErrorEvent]
    on a new reporter puts exactly one event on top of the stack of the mock
    publisher, with the error payload and the four context pairs of these
    values. *)
Theorem error_emit_on_stack :
  forall (s : dnsManagementService) (e : errorType) (critical : bool)
         (stack : list DebuggerEvent),
    exists w',
      perform_all [SetManagementService s; EmitDNSConfigurationErrorEvent e critical]
        {| this := newDNSAnalytics stack; trace := [] |} = Done tt w'
      /\ debugPublisher (this w')
         = {| JsonData :=
                error_payload (dnsManagementService_String s) (errorType_String e) critical;
              KeyBasedContextPaths :=
                [ {| Path := "dns.error_type"; Value := AString (errorType_String e) |};
                  {| Path := "dns.critical"; Value := ABool critical |};
                  {| Path := "dns.type"; Value := AString "dns_configuration_error" |};
                  {| Path := "dns.management_service";
                     Value := AString (dnsManagementService_String s) |} ];
              GlobalContextPaths := globalPaths |} :: stack.
Proof.
  intros s e critical stack.
  eexists; split; [apply perform_all_run; reflexivity|].
  cbn [this debugPublisher managementService newDNSAnalytics events_of fold_left
       Publish MockPublisher].
  f_equal. unfold call_event. f_equal.
  cbn [call_fields]. unfold jsonData_of. rewrite Marshal_newErrorEvent. reflexivity.
Qed.

(** ** The mock of the analytics *)

(** X8. Calls on the mock always return. The mock ends with the service of
    the last set, with each of its two flags raised if it was raised before
    or a call of that kind was made (a flag is never lowered), and with the
    error calls appended to its list in the order they were made. *)
Theorem analyticsMock_perform_all :
  forall (cs : list call) (a : analyticsMock),
    perform_all cs a
    = Done tt
        {| resolvConfEventEmitted :=
             resolvConfEventEmitted a || existsb is_overwritten cs;
           dnsConfiguredEmited := dnsConfiguredEmited a || existsb is_configured cs;
           mock_managementService := service_after (mock_managementService a) cs;
           emittedErrors := emittedErrors a ++ errors_of cs |}.
Proof.
  induction cs as [|c cs IH]; intros [o d s errs].
  - cbn. unfold ret. now rewrite !orb_false_r, app_nil_r.
  - cbn [perform_all]. unfold bind.
    destruct c as [s'| | |e critical]; cbn [perform];
      cbn; rewrite IH;
      cbn [resolvConfEventEmitted dnsConfiguredEmited mock_managementService
           emittedErrors];
      rewrite <- ?app_assoc, ?orb_true_r; cbn [app orb]; reflexivity.
Qed.

(** X9. The mock and the reporter hold the same management service after any
    sequence of calls, if they held the same before it or if the sequence
    sets the service at least once. *)
Theorem analyticsMock_tracks_service :
  forall (Mar : json.Marshaler) (P : Type) (Pub : Publisher P)
         (cs : list call) (a : analyticsMock) (w : world P),
    mu (this w) = false ->
    mock_managementService a = managementService (this w)
    \/ existsb (fun c => negb (is_emit c)) cs = true ->
    exists a' w',
      perform_all cs a = Done tt a'
      /\ perform_all cs w = Done tt w'
      /\ mock_managementService a' = managementService (this w').
Proof.
  intros Mar P Pub cs. induction cs as [|c cs IH]; intros a w Hmu Hsame.
  - exists a, w. repeat split. destruct Hsame as [Hsame|Hset]; [exact Hsame|].
    discriminate Hset.
  - cbn [perform_all]. unfold bind.
    destruct (is_emit c) eqn:Hc.
    + rewrite (perform_emit c w Hc Hmu).
      assert (Hmock : exists a1, perform c a = Done tt a1
                                 /\ mock_managementService a1 = mock_managementService a)
        by (destruct c; try discriminate Hc; eexists; split; reflexivity).
      destruct Hmock as (a1 & -> & Ha1).
      apply IH; [reflexivity|]. cbn [this managementService].
      destruct Hsame as [Hsame|Hset]; [left; congruence|].
      right. cbn [existsb] in Hset. now rewrite Hc in Hset.
    + destruct c as [s| | |]; try discriminate Hc.
      rewrite (perform_set s w Hmu). cbn [perform setManagementService
        analyticsMock_analytics analyticsMock_setManagementService].
      apply IH; [reflexivity|]. left. reflexivity.
Qed.

Lemma analyticsMock_tracks_service_witness :
  exists a' w',
    perform_all [EmitDNSConfiguredEvent; SetManagementService unmanagedService;
                 EmitResolvConfOverwrittenEvent] newAnalyticsMock = Done tt a'
    /\ perform_all [EmitDNSConfiguredEvent; SetManagementService unmanagedService;
                    EmitResolvConfOverwrittenEvent] fresh = Done tt w'
    /\ mock_managementService a' = managementService (this w').
Proof.
  apply (analyticsMock_tracks_service json.std (list DebuggerEvent) MockPublisher
           [EmitDNSConfiguredEvent; SetManagementService unmanagedService;
            EmitResolvConfOverwrittenEvent] newAnalyticsMock fresh).
  - reflexivity.
  - right. reflexivity.
Defined.

(** ** The embedded event *)

(** X11. The JSON of an error event is the JSON of the plain event it
    embeds, with the two fields of the error added before the closing brace;
    this holds for every event type, and the namespace passed to either
    constructor has no part in it. *)
Theorem errorEvent_json_extends_event :
  forall (et : eventType) (ns ns' : string) (ms : dnsManagementService)
         (e : errorType) (critical : bool),
    exists body,
      json.Marshal (event_fields (newEvent et ns ms)) = inl ("{" ++ body ++ "}")
      /\ json.Marshal (errorEvent_fields (newErrorEvent et ns' ms e critical))
         = inl ("{" ++ body
                ++ json_lit ",'error_type':'" ++ errorType_String e
                ++ json_lit "','cricital':" ++ (if critical then "true" else "false")
                ++ "}").
Proof.
  intros et ns ns' ms e critical.
  exists (json_lit "'event':'" ++ eventType_String et
          ++ json_lit "','namespace':'nordvpn-linux','management_service':'"
          ++ dnsManagementService_String ms ++ String dquote "").
  split; cbn [json.Marshal json.std]; f_equal.
  - rewrite encodeStruct_event;
      cbn [Event MessageNamespace ManagementService newEvent];
      auto using eventType_String_plain, dnsManagementService_String_plain.
    cbn [json_lit Ascii.eqb Bool.eqb internal.DebugEventMessageNamespace].
    flatten_strings. reflexivity.
  - rewrite encodeStruct_errorEvent;
      cbn [Event MessageNamespace ManagementService ErrorType Critical
           errorEvent_event newErrorEvent newEvent];
      auto using eventType_String_plain, dnsManagementService_String_plain,
        errorType_String_plain.
    cbn [json_lit Ascii.eqb Bool.eqb internal.DebugEventMessageNamespace].
    destruct critical; flatten_strings; reflexivity.
Qed.
